(** * next-talk-ai: the electricity-fee dialogue controller of [talk.py]

    A shallow embedding of the conversation state machine of [talk.py]
    (the nodes [intent_recognition_node], [check_electric_fee_node],
    [other_intent_node], the router [route_intent] and the graph assembled
    by [build_graph]) and the properties its specification states.

    Python [str] values are sequences of Unicode code points and are
    modelled as [list N]; [int] is [Z]; the dict [ConversationState] is a
    record with one field per key; a call that may raise returns an
    [outcome]. *)

From Stdlib Require Import NArith ZArith String Ascii List Bool Lia.
Import ListNotations.

(** ** Python strings *)

(** A [str] is the list of its code points. *)
Definition str := list N.

Module Utf8.

(** String literals of this file are UTF-8 encoded; [decode] turns the
    bytes of a literal into the code points of the Python literal of the
    same text. *)
Fixpoint bytes (s : string) : list N :=
  match s with
  | EmptyString => []
  | String a r => N_of_ascii a :: bytes r
  end.

Definition cont (acc b : N) : N := N.lor (N.shiftl acc 6) (N.land b 0x3F).

Fixpoint decode (bs : list N) : str :=
  match bs with
  | [] => []
  | b0 :: r0 =>
      if (b0 <? 0x80)%N then b0 :: decode r0
      else if (b0 <? 0xE0)%N then
        match r0 with
        | b1 :: r1 => cont (N.land b0 0x1F) b1 :: decode r1
        | _ => []
        end
      else if (b0 <? 0xF0)%N then
        match r0 with
        | b1 :: b2 :: r2 => cont (cont (N.land b0 0x0F) b1) b2 :: decode r2
        | _ => []
        end
      else
        match r0 with
        | b1 :: b2 :: b3 :: r3 =>
            cont (cont (cont (N.land b0 0x07) b1) b2) b3 :: decode r3
        | _ => []
        end
  end.

End Utf8.

(** [py "text"] is the Python string literal ["text"]. *)
Definition py (s : string) : str := Utf8.decode (Utf8.bytes s).

(** [a == b] on strings. *)
Fixpoint str_eqb (a b : str) : bool :=
  match a, b with
  | [], [] => true
  | x :: a', y :: b' => (x =? y)%N && str_eqb a' b'
  | _, _ => false
  end.

(** ** Character classes of the Python runtime *)

Module Unicode.

Definition in_range (c : N) (r : N * N) : bool :=
  ((fst r <=? c) && (c <=? snd r))%N.

Definition in_table (t : list (N * N)) (c : N) : bool :=
  existsb (in_range c) t.

(** The code points with the Unicode decimal-digit property (category
    Nd), Unicode 14.0: what [\d] matches in a [str] pattern compiled
    without [re.ASCII], and what [str.isdecimal] accepts. *)
Definition decimal_table : list (N * N) :=
  [ (0x30, 0x39); (0x660, 0x669); (0x6F0, 0x6F9); (0x7C0, 0x7C9);
    (0x966, 0x96F); (0x9E6, 0x9EF); (0xA66, 0xA6F); (0xAE6, 0xAEF);
    (0xB66, 0xB6F); (0xBE6, 0xBEF); (0xC66, 0xC6F); (0xCE6, 0xCEF);
    (0xD66, 0xD6F); (0xDE6, 0xDEF); (0xE50, 0xE59); (0xED0, 0xED9);
    (0xF20, 0xF29); (0x1040, 0x1049); (0x1090, 0x1099); (0x17E0, 0x17E9);
    (0x1810, 0x1819); (0x1946, 0x194F); (0x19D0, 0x19D9); (0x1A80, 0x1A89);
    (0x1A90, 0x1A99); (0x1B50, 0x1B59); (0x1BB0, 0x1BB9); (0x1C40, 0x1C49);
    (0x1C50, 0x1C59); (0xA620, 0xA629); (0xA8D0, 0xA8D9); (0xA900, 0xA909);
    (0xA9D0, 0xA9D9); (0xA9F0, 0xA9F9); (0xAA50, 0xAA59); (0xABF0, 0xABF9);
    (0xFF10, 0xFF19); (0x104A0, 0x104A9); (0x10D30, 0x10D39);
    (0x11066, 0x1106F); (0x110F0, 0x110F9); (0x11136, 0x1113F);
    (0x111D0, 0x111D9); (0x112F0, 0x112F9); (0x11450, 0x11459);
    (0x114D0, 0x114D9); (0x11650, 0x11659); (0x116C0, 0x116C9);
    (0x11730, 0x11739); (0x118E0, 0x118E9); (0x11950, 0x11959);
    (0x11C50, 0x11C59); (0x11D50, 0x11D59); (0x11DA0, 0x11DA9);
    (0x16A60, 0x16A69); (0x16AC0, 0x16AC9); (0x16B50, 0x16B59);
    (0x1D7CE, 0x1D7FF); (0x1E140, 0x1E149); (0x1E2F0, 0x1E2F9);
    (0x1E950, 0x1E959); (0x1FBF0, 0x1FBF9) ]%N.

Definition isdecimal : N -> bool := in_table decimal_table.

(** The code points [str.strip()] removes when called without
    argument ([str.isspace]). *)
Definition space_table : list (N * N) :=
  [ (0x9, 0xD); (0x1C, 0x20); (0x85, 0x85); (0xA0, 0xA0);
    (0x1680, 0x1680); (0x2000, 0x200A); (0x2028, 0x2029);
    (0x202F, 0x202F); (0x205F, 0x205F); (0x3000, 0x3000) ]%N.

Definition isspace : N -> bool := in_table space_table.

(** The ten ASCII digits ['0'] .. ['9']. *)
Definition is_ascii_digit (c : N) : bool := in_range c (0x30, 0x39)%N.

End Unicode.

(** [s.lstrip()], [s.rstrip()] and [s.strip()]. *)
Fixpoint lstrip (s : str) : str :=
  match s with
  | [] => []
  | c :: t => if Unicode.isspace c then lstrip t else s
  end.

Definition rstrip (s : str) : str := rev (lstrip (rev s)).

Definition strip (s : str) : str := rstrip (lstrip s).

(** ** The regular expression [\d{10,12}] *)

Module Re.

(** A match object: where the match starts and the text it covers
    ([m.start()], [m.group()]). *)
Record Match := { start : nat; group : str }.

Section Repeat.
(** The pattern [X{lo,hi}] for a one-character class [X], greedy. *)
Variable cls : N -> bool.
Variables lo hi : nat.

(** How many characters at the head of [s] are in the class, counting
    no further than [maxcount]: the greedy repeat takes that many. *)
Fixpoint count (maxcount : nat) (s : str) : nat :=
  match maxcount, s with
  | S k, c :: t => if cls c then S (count k t) else 0
  | _, _ => 0
  end.

(** The match of the pattern at the head of [s], when there is one:
    the repeat takes as many characters as it can, up to [hi], and
    fails with fewer than [lo]. *)
Definition match_here (s : str) : option str :=
  let n := count hi s in
  if lo <=? n then Some (firstn n s) else None.

(** [search]: the start positions are tried from left to right, the
    end of the string included; the first that matches wins. *)
Fixpoint search_from (pos : nat) (s : str) : option Match :=
  match match_here s with
  | Some g => Some {| start := pos; group := g |}
  | None =>
      match s with
      | [] => None
      | _ :: t => search_from (S pos) t
      end
  end.

Definition search_repeat (s : str) : option Match := search_from 0 s.
End Repeat.

(** [re.search(r'\d{10,12}', s)]. *)
Definition search_account (s : str) : option Match :=
  search_repeat Unicode.isdecimal 10 12 s.

End Re.

(** ** Calls that may raise *)

Inductive exn := Exception (msg : str).

Inductive outcome (A : Type) :=
| Returned (a : A)
| Raised (e : exn).
Arguments Returned {A} a.
Arguments Raised {A} e.

Definition bind {A B} (c : outcome A) (k : A -> outcome B) : outcome B :=
  match c with
  | Returned a => k a
  | Raised e => Raised e
  end.

Notation "x <- c ;; k" := (bind c (fun x => k))
  (at level 61, c at next level, right associativity).

(** ** The conversation state and the nodes of the graph *)

Module Talk.

Record ConversationState := {
  user_input : str;
  intent : str;
  user_id : str;
  reply : str;
  step : Z
  }.

(** [state[key] = v] for each key the nodes assign. *)
Definition set_intent (v : str) (st : ConversationState) :=
  {| user_input := user_input st; intent := v; user_id := user_id st;
     reply := reply st; step := step st |}.
Definition set_user_id (v : str) (st : ConversationState) :=
  {| user_input := user_input st; intent := intent st; user_id := v;
     reply := reply st; step := step st |}.
Definition set_reply (v : str) (st : ConversationState) :=
  {| user_input := user_input st; intent := intent st; user_id := user_id st;
     reply := v; step := step st |}.
Definition set_step (v : Z) (st : ConversationState) :=
  {| user_input := user_input st; intent := intent st; user_id := user_id st;
     reply := reply st; step := v |}.
Definition set_user_input (v : str) (st : ConversationState) :=
  {| user_input := v; intent := intent st; user_id := user_id st;
     reply := reply st; step := step st |}.

(** The two labels of [intent]. *)
Definition check_electric_fee : str := py "check_electric_fee".
Definition other : str := py "other".

(** The replies. *)
Definition ask_id_reply : str :=
  py "为了帮你查询电费，请提供你的用电户号（如1234567890）。".
Definition fee_reply (uid : str) : str :=
  py "你的用电户号" ++ uid ++
  py "本月电费为：125.6元，账单日期：2026-01-27，缴费截止日期：2026-02-15。".
Definition format_error_reply : str :=
  py "你输入的户号格式错误（需10-12位纯数字），本次查询结束。如需重新查询，请再次输入'查电费'。".
Definition completed_reply : str :=
  py "你已完成电费查询，如需再次查询，请重新输入'查电费'。".
Definition other_reply : str :=
  py "暂仅支持电费查询服务，如需查询电费，请输入'查电费'。".

Section Classifier.
(** [intent_chain.invoke({"user_input": s})]: the prompt piped into
    the language model and the output parser.  The service is outside
    the program; it returns some text or raises. *)
Variable intent_chain_invoke : str -> outcome str.

Definition intent_recognition_node (state : ConversationState)
  : outcome ConversationState :=
  let user_input := user_input state in
  raw <- intent_chain_invoke user_input ;;
  let intent := strip raw in
  Returned
    (set_intent
       (if str_eqb intent check_electric_fee then check_electric_fee
        else other)
       state).
End Classifier.

Definition check_electric_fee_node (state : ConversationState)
  : ConversationState :=
  let step := step state in
  let user_input := user_input state in
  if (step =? 0)%Z then
    set_step 1 (set_reply ask_id_reply state)
  else if (step =? 1)%Z then
    match Re.search_account user_input with
    | Some id_match =>
        let user_id := Re.group id_match in
        set_step 2 (set_reply (fee_reply user_id) (set_user_id user_id state))
    | None =>
        set_step 0 (set_reply format_error_reply state)
    end
  else if (step =? 2)%Z then
    set_step 0 (set_reply completed_reply state)
  else state.

Definition other_intent_node (state : ConversationState)
  : ConversationState :=
  set_step 0 (set_reply other_reply state).

(** The nodes a turn can be routed to. *)
Inductive node := Check_electric_fee_node | Other_intent_node.

Definition route_intent (state : ConversationState) : node :=
  if str_eqb (intent state) check_electric_fee
  then Check_electric_fee_node else Other_intent_node.

Definition run_node (n : node) : ConversationState -> ConversationState :=
  match n with
  | Check_electric_fee_node => check_electric_fee_node
  | Other_intent_node => other_intent_node
  end.

Section Graph.
Variable intent_chain_invoke : str -> outcome str.

(** [build_graph().invoke(state)]: the entry point is
    [intent_recognition]; its conditional edge goes through
    [route_intent] to one of the two nodes, and both have an edge to
    [END]. *)
Definition invoke (state : ConversationState) : outcome ConversationState :=
  st <- intent_recognition_node intent_chain_invoke state ;;
  Returned (run_node (route_intent st) st).

(** One iteration of the main loop: the new input is stored in the
    state and the graph is run on it. *)
Definition run_turn (state : ConversationState) (new_input : str)
  : outcome ConversationState :=
  invoke (set_user_input new_input state).
End Graph.

End Talk.

(** ** The identifier rule in the words of the specification *)

Module Spec.

(** A run that has been read to its end; [cur] holds it last digit
    first. *)
Definition flush (cur : str) : list str :=
  match cur with
  | [] => []
  | _ :: _ => [rev cur]
  end.

(** The maximal runs of ASCII digits of [s], from left to right. *)
Fixpoint runs_from (cur s : str) : list str :=
  match s with
  | [] => flush cur
  | c :: t =>
      if Unicode.is_ascii_digit c then runs_from (c :: cur) t
      else flush cur ++ runs_from [] t
  end.

Definition digit_runs (s : str) : list str := runs_from [] s.

Definition valid_length (r : str) : bool :=
  (10 <=? length r) && (length r <=? 12).

(** "The first maximal run of ASCII digits whose length is between 10 and
    12 inclusive"; [None] when validation fails. *)
Definition first_valid_run (s : str) : option str :=
  find valid_length (digit_runs s).

End Spec.

(** ** Maximal runs of digits, as the search sees digits *)

Module Runs.

Section Class.
Variable cls : N -> bool.

(** The maximal runs of characters of the class in [s], from left to
    right; [cur] holds the run being read, last character first. *)
Fixpoint runs_from (cur s : str) : list str :=
  match s with
  | [] => Spec.flush cur
  | c :: t =>
      if cls c then runs_from (c :: cur) t
      else Spec.flush cur ++ runs_from [] t
  end.

Definition runs (s : str) : list str := runs_from [] s.
End Class.

End Runs.

(** The maximal runs of digits of [s], a digit being any character [\d]
    matches. *)
Definition decimal_runs (s : str) : list str := Runs.runs Unicode.isdecimal s.

(** The first maximal run of digits whose length is between 10 and 12
    inclusive. *)
Definition first_valid_decimal_run (s : str) : option str :=
  find Spec.valid_length (decimal_runs s).

Definition long_enough (r : str) : bool := 10 <=? length r.

(** The first maximal run of ten digits or more, when there is one, has
    at most twelve digits: no longer run comes before the first run of 10
    to 12 digits, or stands in a text without such a run. *)
Definition first_long_run_fits (s : str) : Prop :=
  forall r, find long_enough (decimal_runs s) = Some r -> length r <= 12.

(** Every maximal run of digits of [s] has fewer than ten digits. *)
Definition all_runs_short (s : str) : Prop :=
  forall r, In r (decimal_runs s) -> length r < 10.

(** ** Blocks of digits in a string *)

(** The first [n] characters of [s] exist and are all in the class. *)
Definition prefix_in (cls : N -> bool) (n : nat) (s : str) : Prop :=
  n <= length s /\ Forall (fun c => cls c = true) (firstn n s).

(** Position [k] of [s] holds no character of the class: the string ends
    there or another character stands there. *)
Definition stops_at (cls : N -> bool) (s : str) (k : nat) : Prop :=
  match nth_error s k with
  | Some c => cls c = false
  | None => True
  end.

(** [n] consecutive digits, in the sense of [\d], stand in [s] from
    position [i] on. *)
Definition digits_at (s : str) (i n : nat) : Prop :=
  prefix_in Unicode.isdecimal n (skipn i s).

(** [s] contains a run of 10 to 12 consecutive digits. *)
Definition has_digit_run (s : str) : Prop :=
  exists i n, 10 <= n <= 12 /\ digits_at s i n.

(** [g] is the block of digits the search selects in [s], at position
    [i]: [i] is the first position from which ten digits follow, and [g]
    is made of the digits that follow [i], as many as there are up to
    twelve. *)
Definition account_block (s : str) (i : nat) (g : str) : Prop :=
  firstn (length g) (skipn i s) = g /\
  10 <= length g <= 12 /\
  Forall (fun c => Unicode.isdecimal c = true) g /\
  (length g < 12 -> stops_at Unicode.isdecimal s (i + length g)) /\
  (forall j, j < i -> ~ digits_at s j 10).

(** ** States and classifiers of the scenarios *)

Import Talk.

(** [step] is one of the three positions of the fee lookup. *)
Definition valid_step (z : Z) : Prop := z = 0%Z \/ z = 1%Z \/ z = 2%Z.

(** The state of a session at position [n] that receives [input]; an
    earlier lookup has left the account number 9876543210 behind. *)
Definition session_at (n : Z) (input : str) : ConversationState :=
  {| user_input := input; intent := []; user_id := py "9876543210";
     reply := []; step := n |}.

(** A classifier that answers [raw] to every input, and one whose call
    raises [e]. *)
Definition answers (raw : str) : str -> outcome str := fun _ => Returned raw.
Definition fails (e : exn) : str -> outcome str := fun _ => Raised e.

Definition service_down : exn := Exception (py "connection error").

(** ** The session loop *)

(** [print(s)] writes [s] and a line feed. *)
Definition print_line (s : str) : str := s ++ [10%N].

(** What the loop writes: the two lines of the banner, the prompt of
    [input], the farewell, and the line that carries a reply. *)
Definition banner : list str :=
  [ print_line (py "===== 电费客服极简会话 =====");
    print_line (py "输入 '退出' 结束会话") ].
Definition prompt : str := 10%N :: py "你：".
Definition farewell : str := print_line (py "客服：感谢你的咨询，再见！").
Definition reply_line (r : str) : str := print_line (py "客服：" ++ r).

(** The word that ends the session. *)
Definition quit_word : str := py "退出".

(** [input] raises [EOFError] when the standard input has no line left. *)
Definition EOFError : exn := Exception (py "EOFError").

Definition initial_state : ConversationState :=
  {| user_input := []; intent := []; user_id := []; reply := [];
     step := 0 |}.

Section Session.
(** The answer of the classifier may differ from one call to the next:
    [chain_at k] is the call made in turn [k]. *)
Variable chain_at : nat -> str -> outcome str.

(** The [while True] loop on the lines [stdin] still to be read, with
    [state] the dict [initial_state] as the turns so far have left it.
    The result is what the loop writes, in order, and how it ends: with
    the state at the [break], or with the exception that leaves it.  The
    graph works on its own copy of the state; the loop copies [step] and
    [user_id] back.  This is the loop on a console without faults:
    [input] returns the lines one by one and fails at the end of the
    input only, [print] does not fail; [main_loop_io] below is the loop
    on any console. *)
Fixpoint main_loop (turn : nat) (stdin : list str)
  (state : ConversationState) : list str * outcome ConversationState :=
  match stdin with
  | [] => ([prompt], Raised EOFError)
  | user_input :: rest =>
      if str_eqb user_input quit_word then
        ([prompt; farewell], Returned state)
      else
        let state := set_user_input user_input state in
        match invoke (chain_at turn) state with
        | Raised e => ([prompt], Raised e)
        | Returned result =>
            let state :=
              set_user_id (user_id result) (set_step (step result) state) in
            let (out, r) := main_loop (S turn) rest state in
            (prompt :: reply_line (reply result) :: out, r)
        end
  end.

(** The script from the banner on. *)
Definition main (stdin : list str) : list str * outcome ConversationState :=
  let (out, r) := main_loop 0 stdin initial_state in
  (banner ++ out, r).
End Session.

(** ** The session loop on any console *)

(** What a call of [input] does: it returns a line, or it raises (a
    keyboard interrupt, a decoding error, a closed pipe), the prompt
    written before or not. *)
Inductive input_event :=
| Line (s : str)
| InputRaises (prompt_written : bool) (e : exn).

Section SessionIO.
Variable chain_at : nat -> str -> outcome str.

(** [print_at k] is the exception the call number [k] of [print] raises,
    if it raises (an encoding error, a closed pipe); the calls are
    counted from the banner on, and a call that raises writes nothing. *)
Variable print_at : nat -> option exn.

(** The loop; turn [turn] reaches one call of [print] at most, the call
    number [2 + turn]. *)
Fixpoint main_loop_io (turn : nat) (stdin : list input_event)
  (state : ConversationState) : list str * outcome ConversationState :=
  match stdin with
  | [] => ([prompt], Raised EOFError)
  | InputRaises prompt_written e :: _ =>
      (if prompt_written then [prompt] else [], Raised e)
  | Line user_input :: rest =>
      if str_eqb user_input quit_word then
        match print_at (2 + turn) with
        | Some e => ([prompt], Raised e)
        | None => ([prompt; farewell], Returned state)
        end
      else
        let state := set_user_input user_input state in
        match invoke (chain_at turn) state with
        | Raised e => ([prompt], Raised e)
        | Returned result =>
            match print_at (2 + turn) with
            | Some e => ([prompt], Raised e)
            | None =>
                let state :=
                  set_user_id (user_id result)
                    (set_step (step result) state) in
                let (out, r) := main_loop_io (S turn) rest state in
                (prompt :: reply_line (reply result) :: out, r)
            end
        end
  end.

Definition main_io (stdin : list input_event)
  : list str * outcome ConversationState :=
  match print_at 0 with
  | Some e => ([], Raised e)
  | None =>
      match print_at 1 with
      | Some e => (firstn 1 banner, Raised e)
      | None =>
          let (out, r) := main_loop_io 0 stdin initial_state in
          (banner ++ out, r)
      end
  end.
End SessionIO.

(** ** Words for the properties of the code *)

(** An account number as the lookup stores it: 10 to 12 digits. *)
Definition valid_account_id (g : str) : Prop :=
  10 <= length g <= 12 /\ Forall (fun c => Unicode.isdecimal c = true) g.

(** The stored account number is empty or well formed. *)
Definition stored_id_ok (u : str) : Prop := u = [] \/ valid_account_id u.

(** The replies the two flows can give. *)
Definition is_reply (r : str) : Prop :=
  r = ask_id_reply \/ r = format_error_reply \/ r = completed_reply \/
  r = other_reply \/ exists g, valid_account_id g /\ r = fee_reply g.

(** What a session may write after the banner: the prompt, the farewell
    or the line of one of the replies. *)
Definition is_output (w : str) : Prop :=
  w = prompt \/ w = farewell \/ exists r, is_reply r /\ w = reply_line r.

(** A text of white space only, the empty text included. *)
Definition blank (s : str) : Prop :=
  Forall (fun c => Unicode.isspace c = true) s.

(** A text without any digit. *)
Definition no_digit (s : str) : Prop :=
  Forall (fun c => Unicode.isdecimal c = false) s.

(** ** Facts on strings *)

(** Reads the fields of an updated state without touching the texts. *)
Ltac fields :=
  unfold set_step, set_reply, set_user_id, set_user_input, set_intent;
  cbn [user_input intent user_id reply step].


Lemma str_eqb_eq (a b : str) : str_eqb a b = true <-> a = b.
Proof.
  revert b; induction a as [|x a IH]; intros [|y b]; simpl;
    try (split; [discriminate | congruence]); try tauto.
  rewrite andb_true_iff, N.eqb_eq, IH. split.
  - intros [-> ->]; reflexivity.
  - intros H; inversion H; auto.
Qed.

Lemma str_eqb_neq (a b : str) : str_eqb a b = false <-> a <> b.
Proof.
  rewrite <- str_eqb_eq. destruct (str_eqb a b); split; congruence.
Qed.

(** ** Facts on the greedy repeat *)

Section RepeatFacts.
Variable cls : N -> bool.

Lemma count_le_max (m : nat) (s : str) : Re.count cls m s <= m.
Proof.
  revert s; induction m as [|m IH]; intros [|c t]; simpl; try lia.
  destruct (cls c); [specialize (IH t)|]; lia.
Qed.

Lemma count_prefix (m : nat) (s : str) : prefix_in cls (Re.count cls m s) s.
Proof.
  unfold prefix_in.
  revert s; induction m as [|m IH]; intros [|c t]; simpl;
    try (split; [lia | constructor]).
  destruct (cls c) eqn:E; simpl.
  - destruct (IH t) as [Hl Hf]. split; [lia | constructor; assumption].
  - split; [lia | constructor].
Qed.

Lemma count_stop (m : nat) (s : str) :
  Re.count cls m s < m -> stops_at cls s (Re.count cls m s).
Proof.
  unfold stops_at.
  revert s; induction m as [|m IH]; intros [|c t]; simpl; try lia; auto.
  destruct (cls c) eqn:E; simpl; intros H; [apply IH; lia | assumption].
Qed.

Lemma prefix_in_cons (n : nat) (c : N) (t : str) :
  prefix_in cls (S n) (c :: t) <-> cls c = true /\ prefix_in cls n t.
Proof.
  unfold prefix_in; simpl. split.
  - intros [Hl Hf]. inversion Hf; subst. repeat split; [assumption | lia | assumption].
  - intros (Hc & Hl & Hf). split; [lia | constructor; assumption].
Qed.

Lemma prefix_in_le (n k : nat) (s : str) :
  k <= n -> prefix_in cls n s -> prefix_in cls k s.
Proof.
  revert k s; induction n as [|n IH]; intros k s Hk H.
  - replace k with 0 by lia. assumption.
  - destruct k as [|k]; [split; [lia | constructor]|].
    destruct s as [|c t]; [destruct H; simpl in *; lia|].
    apply prefix_in_cons in H. apply prefix_in_cons.
    destruct H; split; [assumption | apply IH; [lia | assumption]].
Qed.

(** The count is the only length with an all-class prefix that stops or
    reaches the bound. *)
Lemma count_unique (m n : nat) (s : str) :
  n <= m -> prefix_in cls n s -> (n < m -> stops_at cls s n) ->
  Re.count cls m s = n.
Proof.
  revert n s; induction m as [|m IH]; intros n s Hn Hp Hs.
  - destruct s; simpl; lia.
  - destruct s as [|c t]; simpl.
    + destruct Hp; simpl in *; lia.
    + destruct n as [|n].
      * unfold stops_at in Hs; simpl in Hs. rewrite Hs by lia. reflexivity.
      * apply prefix_in_cons in Hp. destruct Hp as [Hc Hp]. rewrite Hc.
        f_equal. apply IH; [lia | assumption |].
        intros H; apply (Hs ltac:(lia)).
Qed.

Lemma count_ge (m n : nat) (s : str) :
  n <= m -> (n <= Re.count cls m s <-> prefix_in cls n s).
Proof.
  intros Hn; split.
  - intros H. apply prefix_in_le with (n := Re.count cls m s);
      [assumption | apply count_prefix].
  - revert n s Hn; induction m as [|m IH]; intros n s Hn H.
    + lia.
    + destruct n as [|n]; [lia|].
      destruct s as [|c t]; [destruct H; simpl in *; lia|].
      apply prefix_in_cons in H. destruct H as [Hc H]. simpl. rewrite Hc.
      apply le_n_S, IH; [lia | assumption].
Qed.

Variables lo hi : nat.
Hypothesis lo_le_hi : lo <= hi.

Lemma match_here_none (s : str) :
  Re.match_here cls lo hi s = None <-> ~ prefix_in cls lo s.
Proof.
  unfold Re.match_here. rewrite <- (count_ge hi lo s lo_le_hi).
  destruct (Nat.leb_spec lo (Re.count cls hi s)); split;
    try discriminate; try lia; auto.
Qed.

Lemma match_here_some (s g : str) :
  Re.match_here cls lo hi s = Some g <->
  firstn (length g) s = g /\ lo <= length g <= hi /\
  Forall (fun c => cls c = true) g /\
  (length g < hi -> stops_at cls s (length g)).
Proof.
  unfold Re.match_here. split.
  - destruct (Nat.leb_spec lo (Re.count cls hi s)) as [Hle|]; [|discriminate].
    intros H; injection H as <-.
    destruct (count_prefix hi s) as [Hl Hf].
    pose proof (count_le_max hi s) as Hm.
    rewrite length_firstn, Nat.min_l by assumption.
    repeat split; try assumption; try lia. apply count_stop.
  - intros (Hg & [Hlo Hhi] & Hf & Hs).
    assert (Hc : Re.count cls hi s = length g).
    { apply count_unique; [assumption | | assumption].
      split; [| rewrite Hg; assumption].
      rewrite <- Hg at 1. rewrite length_firstn. lia. }
    rewrite Hc. destruct (Nat.leb_spec lo (length g)); [|lia].
    rewrite Hg. reflexivity.
Qed.

Lemma search_from_none (pos : nat) (s : str) :
  Re.search_from cls lo hi pos s = None <->
  forall i, Re.match_here cls lo hi (skipn i s) = None.
Proof.
  revert pos; induction s as [|c t IH]; intros pos; simpl.
  - destruct (Re.match_here cls lo hi []) eqn:E; split; try discriminate; auto.
    + intros H. specialize (H 0). simpl in H. congruence.
    + intros _ i. rewrite skipn_nil. assumption.
  - destruct (Re.match_here cls lo hi (c :: t)) eqn:E.
    + split; [discriminate|]. intros H. specialize (H 0). simpl in H. congruence.
    + rewrite IH. split.
      * intros H [|i]; simpl; auto.
      * intros H i. apply (H (S i)).
Qed.

Lemma search_from_found (pos i : nat) (s g : str) :
  Re.match_here cls lo hi (skipn i s) = Some g ->
  (forall j, j < i -> Re.match_here cls lo hi (skipn j s) = None) ->
  Re.search_from cls lo hi pos s = Some {| Re.start := pos + i; Re.group := g |}.
Proof.
  revert pos s; induction i as [|i IH]; intros pos s Hg Hn.
  - simpl in Hg. destruct s; simpl; rewrite Hg, Nat.add_0_r; reflexivity.
  - pose proof (Hn 0 ltac:(lia)) as H0. simpl in H0.
    destruct s as [|c t].
    + simpl in Hg. congruence.
    + simpl. rewrite H0. rewrite (IH (S pos) t).
      * f_equal. f_equal. lia.
      * assumption.
      * intros j Hj. apply (Hn (S j)). lia.
Qed.

Lemma search_from_some (pos : nat) (s : str) (m : Re.Match) :
  Re.search_from cls lo hi pos s = Some m ->
  exists i, Re.start m = pos + i /\
    Re.match_here cls lo hi (skipn i s) = Some (Re.group m) /\
    forall j, j < i -> Re.match_here cls lo hi (skipn j s) = None.
Proof.
  revert pos; induction s as [|c t IH]; intros pos; simpl.
  - destruct (Re.match_here cls lo hi []) eqn:E; [|discriminate].
    intros H; injection H as <-. exists 0; simpl. repeat split; [lia | assumption | lia].
  - destruct (Re.match_here cls lo hi (c :: t)) eqn:E.
    + intros H; injection H as <-. exists 0; simpl.
      repeat split; [lia | assumption | lia].
    + intros H. apply IH in H. destruct H as (i & Hs & Hm & Hn).
      exists (S i). simpl. repeat split; [lia | assumption |].
      intros [|j] Hj; simpl; [assumption | apply Hn; lia].
Qed.

End RepeatFacts.

(** ** The embedding on the inputs of the scenarios *)

Example py_literal : py "查电费" = [0x67E5; 0x7535; 0x8D39]%N.
Proof. reflexivity. Qed.

Example search_scenario2 :
  Re.search_account (py "我的户号是1234567890谢谢")
  = Some {| Re.start := 5; Re.group := py "1234567890" |}.
Proof. vm_compute. reflexivity. Qed.

(** Scenario 6: a run of ten digits before a run of thirteen. *)
Example search_scenario6 :
  Re.search_account (py "户号1234567890，电话1234567890123")
  = Some {| Re.start := 2; Re.group := py "1234567890" |} /\
  Spec.first_valid_run (py "户号1234567890，电话1234567890123")
  = Some (py "1234567890").
Proof. vm_compute. split; reflexivity. Qed.

(** The maximal runs of digits, full-width digits included. *)
Example decimal_runs_mixed :
  decimal_runs (py "电话138，邮编１００１０１。") = [py "138"; py "１００１０１"] /\
  Spec.digit_runs (py "电话138，邮编１００１０１。") = [py "138"].
Proof. vm_compute. split; reflexivity. Qed.

Example search_too_short : Re.search_account (py "123") = None.
Proof. vm_compute. reflexivity. Qed.

Example strip_answer :
  strip (py "  check_electric_fee " ++ [10%N]) = py "check_electric_fee".
Proof. vm_compute. reflexivity. Qed.

(** ** The search for the account number *)

Lemma match_account_none (s : str) (i : nat) :
  Re.match_here Unicode.isdecimal 10 12 (skipn i s) = None <->
  ~ digits_at s i 10.
Proof. apply match_here_none. lia. Qed.

Lemma search_account_none (s : str) :
  Re.search_account s = None <-> ~ has_digit_run s.
Proof.
  unfold Re.search_account, Re.search_repeat.
  rewrite search_from_none by lia. split.
  - intros H (i & n & Hn & Hd). apply (proj1 (match_account_none s i) (H i)).
    apply prefix_in_le with (n := n); [lia | exact Hd].
  - intros H i. apply match_account_none. intros Hd. apply H.
    exists i, 10. split; [lia | exact Hd].
Qed.

Lemma search_account_block (s : str) (i : nat) (g : str) :
  Re.search_account s = Some {| Re.start := i; Re.group := g |} <->
  account_block s i g.
Proof.
  unfold Re.search_account, Re.search_repeat, account_block. split.
  - intros H. apply search_from_some in H; [|lia].
    destruct H as (k & Hk & Hm & Hn). simpl in Hk, Hm. subst k.
    apply match_here_some in Hm; [|lia].
    destruct Hm as (Hg & Hlen & Hf & Hs).
    repeat split; try assumption; try lia.
    + intros Hlt. specialize (Hs Hlt). unfold stops_at in *.
      rewrite nth_error_skipn in Hs. exact Hs.
    + intros j Hj. apply match_account_none, Hn, Hj.
  - intros (Hg & Hlen & Hf & Hs & Hn).
    change i with (0 + i). apply search_from_found; [lia | |].
    + apply match_here_some; [lia|]. repeat split; try assumption; try lia.
      intros Hlt. specialize (Hs Hlt). unfold stops_at in *.
      rewrite nth_error_skipn. exact Hs.
    + intros j Hj. apply match_account_none, Hn, Hj.
Qed.

Lemma search_account_cases (s : str) :
  (exists i g, account_block s i g) \/ ~ has_digit_run s.
Proof.
  destruct (Re.search_account s) as [[i g]|] eqn:E.
  - left. exists i, g. apply search_account_block, E.
  - right. apply search_account_none, E.
Qed.

(** ** The fee lookup, step by step *)

Lemma fee_node_step0 (st : ConversationState) :
  step st = 0%Z ->
  check_electric_fee_node st = set_step 1 (set_reply ask_id_reply st).
Proof. intros H. unfold check_electric_fee_node. rewrite H. reflexivity. Qed.

Lemma fee_node_found (st : ConversationState) (m : Re.Match) :
  step st = 1%Z -> Re.search_account (user_input st) = Some m ->
  check_electric_fee_node st =
  set_step 2 (set_reply (fee_reply (Re.group m)) (set_user_id (Re.group m) st)).
Proof.
  intros H E. unfold check_electric_fee_node. rewrite H, E. reflexivity.
Qed.

Lemma fee_node_not_found (st : ConversationState) :
  step st = 1%Z -> Re.search_account (user_input st) = None ->
  check_electric_fee_node st = set_step 0 (set_reply format_error_reply st).
Proof.
  intros H E. unfold check_electric_fee_node. rewrite H, E. reflexivity.
Qed.

Lemma fee_node_step2 (st : ConversationState) :
  step st = 2%Z ->
  check_electric_fee_node st = set_step 0 (set_reply completed_reply st).
Proof. intros H. unfold check_electric_fee_node. rewrite H. reflexivity. Qed.

Lemma fee_node_other_step (st : ConversationState) :
  ~ valid_step (step st) -> check_electric_fee_node st = st.
Proof.
  unfold valid_step, check_electric_fee_node. intros H.
  destruct (Z.eqb_spec (step st) 0); [tauto|].
  destruct (Z.eqb_spec (step st) 1); [tauto|].
  destruct (Z.eqb_spec (step st) 2); [tauto|]. reflexivity.
Qed.

Lemma fee_node_valid_step (st : ConversationState) :
  valid_step (step st) -> valid_step (step (check_electric_fee_node st)).
Proof.
  unfold valid_step, check_electric_fee_node.
  intros [H|[H|H]]; rewrite H; simpl;
    try destruct (Re.search_account (user_input st)); simpl; auto.
Qed.

Lemma fee_node_user_id (st : ConversationState) :
  user_id (check_electric_fee_node st) <> user_id st ->
  step st = 1%Z /\
  exists m, Re.search_account (user_input st) = Some m /\
            user_id (check_electric_fee_node st) = Re.group m.
Proof.
  unfold check_electric_fee_node.
  destruct (Z.eqb_spec (step st) 0); [simpl; tauto|].
  destruct (Z.eqb_spec (step st) 1).
  - destruct (Re.search_account (user_input st)) as [m|]; simpl; [|tauto].
    intros _. split; [assumption | exists m; auto].
  - destruct (Z.eqb_spec (step st) 2); simpl; tauto.
Qed.

(** ** The identifier rule *)

(** C1, as the specification words it, fails on the code: a run of
    thirteen ASCII digits holds no maximal run of 10 to 12 digits, yet
    its first twelve digits are stored and the lookup completes; and ten
    full-width digits, none of them ASCII, are stored as well. *)
Lemma first_valid_run_not_stored :
  (Spec.first_valid_run (py "1234567890123") = None /\
   user_id (check_electric_fee_node (session_at 1 (py "1234567890123")))
   = py "123456789012" /\
   step (check_electric_fee_node (session_at 1 (py "1234567890123"))) = 2%Z)
  /\
  (Spec.first_valid_run (py "１２３４５６７８９０") = None /\
   user_id (check_electric_fee_node (session_at 1 (py "１２３４５６７８９０")))
   = py "１２３４５６７８９０" /\
   step (check_electric_fee_node (session_at 1 (py "１２３４５６７８９０"))) = 2%Z).
Proof. vm_compute. repeat split. Qed.

(** ** Where the rule of the specification and the search agree *)

Section Runs.
Variable cls : N -> bool.

Lemma split_run (s : str) :
  exists run rest, s = run ++ rest /\
    Forall (fun c => cls c = true) run /\ stops_at cls rest 0.
Proof.
  induction s as [|c t IH].
  - exists [], []. repeat split. constructor.
  - destruct (cls c) eqn:E.
    + destruct IH as (run & rest & -> & Hf & Hs).
      exists (c :: run), rest. repeat split; [constructor; assumption | assumption].
    + exists [], (c :: t). repeat split; [constructor | exact E].
Qed.

Lemma firstn_length_app (a b : str) : firstn (length a) (a ++ b) = a.
Proof. induction a as [|x a IH]; simpl; [destruct b | rewrite IH]; reflexivity. Qed.

Lemma skipn_length_app (a b : str) : skipn (length a) (a ++ b) = b.
Proof. induction a as [|x a IH]; simpl; [reflexivity | exact IH]. Qed.

Lemma run_prefix (run rest : str) :
  Forall (fun c => cls c = true) run ->
  prefix_in cls (length run) (run ++ rest).
Proof.
  intros Hf. split.
  - rewrite length_app. lia.
  - rewrite firstn_length_app. exact Hf.
Qed.

Lemma run_stops (run rest : str) :
  stops_at cls rest 0 -> stops_at cls (run ++ rest) (length run).
Proof.
  unfold stops_at. rewrite nth_error_app2 by lia.
  rewrite Nat.sub_diag. auto.
Qed.

Variables lo hi : nat.
Hypothesis lo_le_hi : lo <= hi.

Lemma match_here_short (run rest : str) :
  Forall (fun c => cls c = true) run -> length run < lo ->
  stops_at cls rest 0 ->
  Re.match_here cls lo hi (run ++ rest) = None.
Proof.
  intros Hf Hl Hs. apply match_here_none; [assumption|].
  rewrite <- (count_ge cls hi lo (run ++ rest) lo_le_hi).
  rewrite (count_unique cls hi (length run) (run ++ rest));
    [lia | lia | apply run_prefix, Hf | intros _; apply run_stops, Hs].
Qed.

Lemma search_from_short (pos : nat) (run rest : str) :
  Forall (fun c => cls c = true) run -> length run < lo ->
  stops_at cls rest 0 ->
  Re.search_from cls lo hi pos (run ++ rest) =
  match rest with
  | [] => None
  | _ :: t => Re.search_from cls lo hi (pos + length run + 1) t
  end.
Proof.
  intros Hf Hl Hs. revert pos.
  induction run as [|c r IH]; intros pos.
  - pose proof (match_here_short [] rest Hf Hl Hs) as Hm. simpl in *.
    destruct rest as [|d t]; simpl; rewrite Hm; [reflexivity|].
    f_equal. lia.
  - pose proof (match_here_short (c :: r) rest Hf Hl Hs) as Hm.
    simpl in *. rewrite Hm. inversion Hf; subst.
    rewrite IH by (assumption || lia).
    destruct rest; [reflexivity | f_equal; lia].
Qed.

Lemma search_from_hit (pos : nat) (run rest : str) :
  Forall (fun c => cls c = true) run -> lo <= length run <= hi ->
  stops_at cls rest 0 ->
  Re.search_from cls lo hi pos (run ++ rest) =
  Some {| Re.start := pos; Re.group := run |}.
Proof.
  intros Hf Hl Hs. rewrite <- (Nat.add_0_r pos) at 2.
  apply search_from_found; [assumption | | intros j Hj; lia].
  simpl. apply match_here_some; [assumption|].
  repeat split; try assumption; try lia.
  - apply firstn_length_app.
  - intros _. apply run_stops, Hs.
Qed.

End Runs.

Lemma ascii_digit_is_decimal (c : N) :
  Unicode.is_ascii_digit c = true -> Unicode.isdecimal c = true.
Proof.
  unfold Unicode.is_ascii_digit, Unicode.isdecimal, Unicode.in_table,
    Unicode.decimal_table.
  intros H. cbn [existsb]. rewrite H. reflexivity.
Qed.

Lemma flush_rev (run : str) :
  Spec.flush (rev run) = match run with [] => [] | _ :: _ => [run] end.
Proof.
  destruct run as [|c r]; [reflexivity|].
  unfold Spec.flush. destruct (rev (c :: r)) as [|x l] eqn:E.
  - apply (f_equal (@length N)) in E. rewrite length_rev in E. discriminate.
  - rewrite <- E, rev_involutive. reflexivity.
Qed.

Lemma runs_from_app (cur run rest : str) :
  Forall (fun c => Unicode.is_ascii_digit c = true) run ->
  Spec.runs_from cur (run ++ rest) = Spec.runs_from (rev run ++ cur) rest.
Proof.
  intros Hf. revert cur. induction Hf as [|c r Hc Hf IH]; intros cur.
  - reflexivity.
  - simpl. rewrite Hc, IH, <- app_assoc. reflexivity.
Qed.

Lemma digit_runs_split (run rest : str) :
  Forall (fun c => Unicode.is_ascii_digit c = true) run ->
  stops_at Unicode.is_ascii_digit rest 0 ->
  Spec.digit_runs (run ++ rest) =
  match run with [] => [] | _ :: _ => [run] end ++
  match rest with [] => [] | _ :: t => Spec.digit_runs t end.
Proof.
  intros Hf Hs. unfold Spec.digit_runs.
  rewrite runs_from_app, app_nil_r by assumption.
  destruct rest as [|c t]; simpl.
  - rewrite flush_rev, app_nil_r. reflexivity.
  - unfold stops_at in Hs. simpl in Hs. rewrite Hs, flush_rev. reflexivity.
Qed.

Lemma first_valid_run_agrees_from (n : nat) (s : str) (pos : nat) :
  length s <= n ->
  Forall (fun c => Unicode.isdecimal c = Unicode.is_ascii_digit c) s ->
  (forall i, ~ digits_at s i 13) ->
  option_map Re.group (Re.search_from Unicode.isdecimal 10 12 pos s)
  = find Spec.valid_length (Spec.digit_runs s).
Proof.
  revert s pos. induction n as [|n IH]; intros s pos Hle Hag Hlong.
  - destruct s; [reflexivity | simpl in Hle; lia].
  - destruct (split_run Unicode.is_ascii_digit s)
      as (run & rest & -> & Hf & Hs).
    apply Forall_app in Hag. destruct Hag as [Hag1 Hag2].
    assert (Hfd : Forall (fun c => Unicode.isdecimal c = true) run).
    { eapply Forall_impl; [|exact Hf]. apply ascii_digit_is_decimal. }
    assert (Hsd : stops_at Unicode.isdecimal rest 0).
    { unfold stops_at in *. destruct rest as [|c t]; simpl in *; [exact I|].
      inversion Hag2; subst. congruence. }
    assert (Hmax : length run <= 12).
    { destruct (Nat.le_gt_cases (length run) 12) as [H|H]; [exact H|].
      exfalso. apply (Hlong 0). unfold digits_at. simpl.
      apply prefix_in_le with (n := length run); [lia|].
      apply run_prefix, Hfd. }
    rewrite digit_runs_split by assumption.
    destruct (Nat.le_gt_cases 10 (length run)) as [Hlo|Hlo].
    + rewrite search_from_hit by (assumption || lia). simpl.
      destruct run as [|c r]; [simpl in Hlo; lia|]. simpl app.
      cbn [find]. unfold Spec.valid_length.
      destruct (Nat.leb_spec 10 (length (c :: r))); [|lia].
      destruct (Nat.leb_spec (length (c :: r)) 12); [|lia]. reflexivity.
    + rewrite search_from_short by (assumption || lia).
      assert (Hskip : forall l,
                 find Spec.valid_length
                   (match run with [] => [] | _ :: _ => [run] end ++ l)
                 = find Spec.valid_length l).
      { intros l. destruct run as [|c r]; [reflexivity|]. simpl app.
        cbn [find]. unfold Spec.valid_length.
        destruct (Nat.leb_spec 10 (length (c :: r))); [lia|]. reflexivity. }
      rewrite Hskip. destruct rest as [|c t]; [reflexivity|].
      apply IH.
      * rewrite length_app in Hle. simpl in Hle. lia.
      * inversion Hag2; assumption.
      * intros i Hd. apply (Hlong (S i + length run)).
        unfold digits_at in *. rewrite <- skipn_skipn.
        rewrite skipn_length_app. exact Hd.
Qed.

(** X17: on a string whose digits are all ASCII and that holds no
    thirteen consecutive digits, the search returns the first maximal run of
    ASCII digits of length 10 to 12, and fails when there is none. *)
Theorem first_valid_run_agrees (s : str) :
  Forall (fun c => Unicode.isdecimal c = Unicode.is_ascii_digit c) s ->
  (forall i, ~ digits_at s i 13) ->
  option_map Re.group (Re.search_account s) = Spec.first_valid_run s.
Proof.
  intros Hag Hlong.
  apply (first_valid_run_agrees_from (length s) s 0); auto.
Qed.

(** ** The search and the maximal runs of digits *)

Lemma class_runs_from_app (cls : N -> bool) (cur run rest : str) :
  Forall (fun c => cls c = true) run ->
  Runs.runs_from cls cur (run ++ rest)
  = Runs.runs_from cls (rev run ++ cur) rest.
Proof.
  intros Hf. revert cur. induction Hf as [|c r Hc Hf IH]; intros cur.
  - reflexivity.
  - simpl. rewrite Hc, IH, <- app_assoc. reflexivity.
Qed.

Lemma class_runs_split (cls : N -> bool) (run rest : str) :
  Forall (fun c => cls c = true) run -> stops_at cls rest 0 ->
  Runs.runs cls (run ++ rest) =
  match run with [] => [] | _ :: _ => [run] end ++
  match rest with [] => [] | _ :: t => Runs.runs cls t end.
Proof.
  intros Hf Hs. unfold Runs.runs.
  rewrite class_runs_from_app, app_nil_r by assumption.
  destruct rest as [|c t]; simpl.
  - rewrite flush_rev, app_nil_r. reflexivity.
  - unfold stops_at in Hs. simpl in Hs. rewrite Hs, flush_rev. reflexivity.
Qed.

Lemma find_short_run (f : str -> bool) (run : str) (l : list str) :
  (run <> [] -> f run = false) ->
  find f (match run with [] => [] | _ :: _ => [run] end ++ l) = find f l.
Proof.
  intros H. destruct run as [|c r]; [reflexivity|].
  simpl app. cbn [find]. rewrite H by discriminate. reflexivity.
Qed.

Lemma search_first_valid_run_from (n : nat) (s : str) (pos : nat) :
  length s <= n -> first_long_run_fits s ->
  option_map Re.group (Re.search_from Unicode.isdecimal 10 12 pos s)
  = first_valid_decimal_run s.
Proof.
  unfold first_long_run_fits, first_valid_decimal_run, decimal_runs.
  revert s pos. induction n as [|n IH]; intros s pos Hle Hfit.
  - destruct s; [reflexivity | simpl in Hle; lia].
  - destruct (split_run Unicode.isdecimal s) as (run & rest & -> & Hf & Hs).
    rewrite class_runs_split in * by assumption.
    destruct (Nat.le_gt_cases 10 (length run)) as [Hlo|Hlo].
    + destruct run as [|c r]; [simpl in Hlo; lia|].
      assert (Hmax : length (c :: r) <= 12).
      { apply Hfit. simpl app. cbn [find]. unfold long_enough.
        destruct (Nat.leb_spec 10 (length (c :: r))); [reflexivity | lia]. }
      rewrite search_from_hit by (assumption || lia).
      simpl app. cbn [find option_map Re.group]. unfold Spec.valid_length.
      destruct (Nat.leb_spec 10 (length (c :: r))); [|lia].
      destruct (Nat.leb_spec (length (c :: r)) 12); [|lia]. reflexivity.
    + rewrite search_from_short by (assumption || lia).
      rewrite find_short_run.
      2:{ intros _. unfold Spec.valid_length.
          destruct (Nat.leb_spec 10 (length run)); [lia | reflexivity]. }
      rewrite find_short_run in Hfit.
      2:{ intros _. unfold long_enough.
          destruct (Nat.leb_spec 10 (length run)); [lia | reflexivity]. }
      destruct rest as [|c t]; [reflexivity|].
      apply IH; [|exact Hfit].
      rewrite length_app in Hle. simpl in Hle. lia.
Qed.

Lemma search_first_valid_run (s : str) :
  first_long_run_fits s ->
  option_map Re.group (Re.search_account s) = first_valid_decimal_run s.
Proof.
  intros Hfit.
  apply (search_first_valid_run_from (length s) s 0 (le_n _) Hfit).
Qed.

Lemma short_runs_fit (s : str) : all_runs_short s -> first_long_run_fits s.
Proof.
  intros Hs r Hr. apply find_some in Hr. destruct Hr as [Hin _].
  specialize (Hs r Hin). lia.
Qed.

Lemma short_runs_no_match (s : str) :
  all_runs_short s -> Re.search_account s = None.
Proof.
  intros Hs.
  pose proof (search_first_valid_run s (short_runs_fit s Hs)) as H.
  destruct (first_valid_decimal_run s) as [g|] eqn:E.
  - unfold first_valid_decimal_run in E. apply find_some in E.
    destruct E as [Hin Hv]. specialize (Hs g Hin).
    unfold Spec.valid_length in Hv.
    destruct (Nat.leb_spec 10 (length g)); [lia | discriminate].
  - destruct (Re.search_account s); [discriminate | reflexivity].
Qed.

(** C1 (amended): at step 1, on an input whose first maximal run of ten
    digits or more, if it has one, has at most twelve digits, the stored
    account number is the first maximal run of digits whose length is
    between 10 and 12 inclusive, scanning from left to right, a digit
    being any character [\d] matches and not an ASCII digit only; the
    reply echoes it and the step becomes 2.  Runs of fewer than ten
    digits are ignored, and when there is no run of 10 to 12 digits
    validation fails.  Nothing is said of an input in which a run of more
    than twelve digits comes first. *)
Theorem account_id_is_first_valid_run (st : ConversationState) :
  step st = 1%Z -> first_long_run_fits (user_input st) ->
  match first_valid_decimal_run (user_input st) with
  | Some g =>
      user_id (check_electric_fee_node st) = g /\
      reply (check_electric_fee_node st) = fee_reply g /\
      step (check_electric_fee_node st) = 2%Z
  | None =>
      check_electric_fee_node st
      = set_step 0 (set_reply format_error_reply st)
  end.
Proof.
  intros Hstep Hfit.
  rewrite <- (search_first_valid_run (user_input st) Hfit).
  destruct (Re.search_account (user_input st)) as [m|] eqn:E;
    cbn [option_map].
  - rewrite (fee_node_found st m Hstep E). fields. auto.
  - apply fee_node_not_found; assumption.
Qed.

Lemma account_id_is_first_valid_run_witness :
  first_long_run_fits
    (user_input (session_at 1 (py "电话138，户号１２３４５６７８９０，邮编1234567890123"))) /\
  first_valid_decimal_run
    (user_input (session_at 1 (py "电话138，户号１２３４５６７８９０，邮编1234567890123")))
  = Some (py "１２３４５６７８９０") /\
  user_id (check_electric_fee_node
             (session_at 1 (py "电话138，户号１２３４５６７８９０，邮编1234567890123")))
  = py "１２３４５６７８９０".
Proof.
  assert (Hfit : first_long_run_fits
            (user_input (session_at 1 (py "电话138，户号１２３４５６７８９０，邮编1234567890123")))).
  { intros r H. vm_compute in H. injection H as <-. vm_compute. lia. }
  assert (E : first_valid_decimal_run
            (user_input (session_at 1 (py "电话138，户号１２３４５６７８９０，邮编1234567890123")))
          = Some (py "１２３４５６７８９０")).
  { vm_compute. reflexivity. }
  split; [exact Hfit | split; [exact E|]].
  pose proof (account_id_is_first_valid_run
                (session_at 1 (py "电话138，户号１２３４５６７８９０，邮编1234567890123"))
                eq_refl Hfit) as H.
  rewrite E in H. exact (proj1 H).
Defined.

(** ** The format error *)

(** C2, as the specification words it, fails on the code: ten full-width
    digits hold no run of ASCII digits at all, and a run of thirteen
    ASCII digits holds no maximal run of 10 to 12 digits, yet on both the
    node gives no format error: the step becomes 2 and the stored account
    number is replaced. *)
Lemma format_error_not_reported :
  (Spec.digit_runs (py "１２３４５６７８９０") = [] /\
   reply (check_electric_fee_node (session_at 1 (py "１２３４５６７８９０")))
   <> format_error_reply /\
   step (check_electric_fee_node (session_at 1 (py "１２３４５６７８９０")))
   <> 0%Z /\
   user_id (check_electric_fee_node (session_at 1 (py "１２３４５６７８９０")))
   <> user_id (session_at 1 (py "１２３４５６７８９０")))
  /\
  (Spec.digit_runs (py "1234567890123") = [py "1234567890123"] /\
   Spec.first_valid_run (py "1234567890123") = None /\
   reply (check_electric_fee_node (session_at 1 (py "1234567890123")))
   <> format_error_reply /\
   step (check_electric_fee_node (session_at 1 (py "1234567890123")))
   <> 0%Z /\
   user_id (check_electric_fee_node (session_at 1 (py "1234567890123")))
   <> user_id (session_at 1 (py "1234567890123"))).
Proof.
  vm_compute. repeat split; discriminate.
Qed.

(** C2 (amended): at step 1, when every maximal run of digits of
    [user_input] has fewer than ten digits, a digit being any character
    [\d] matches, the node returns normally with the format-error reply,
    the step back at 0 and the account number, like the other fields, as
    on entry.  Nothing is said of an input that holds a run of more than
    twelve digits. *)
Theorem format_error_when_runs_short (st : ConversationState) :
  step st = 1%Z -> all_runs_short (user_input st) ->
  reply (check_electric_fee_node st) = format_error_reply /\
  step (check_electric_fee_node st) = 0%Z /\
  user_id (check_electric_fee_node st) = user_id st /\
  user_input (check_electric_fee_node st) = user_input st /\
  intent (check_electric_fee_node st) = intent st.
Proof.
  intros Hstep Hs. apply short_runs_no_match in Hs.
  rewrite (fee_node_not_found st Hstep Hs). fields. auto.
Qed.

Lemma format_error_when_runs_short_witness :
  step (session_at 1 (py "电话138，邮编１００１０１")) = 1%Z /\
  all_runs_short (user_input (session_at 1 (py "电话138，邮编１００１０１"))) /\
  reply (check_electric_fee_node (session_at 1 (py "电话138，邮编１００１０１")))
  = format_error_reply /\
  step (check_electric_fee_node (session_at 1 (py "电话138，邮编１００１０１")))
  = 0%Z /\
  user_id (check_electric_fee_node (session_at 1 (py "电话138，邮编１００１０１")))
  = py "9876543210".
Proof.
  assert (Hs : all_runs_short
                 (user_input (session_at 1 (py "电话138，邮编１００１０１")))).
  { intros r H. vm_compute in H.
    destruct H as [<-|[<-|[]]]; vm_compute; lia. }
  split; [reflexivity | split; [exact Hs|]].
  destruct (format_error_when_runs_short
              (session_at 1 (py "电话138，邮编１００１０１")) eq_refl Hs)
    as (Hr & Hst & Hu & _).
  split; [exact Hr | split; [exact Hst | exact Hu]].
Defined.

(** C3: at step 1 with the input "我的户号是1234567890谢谢" the node
    stores the account number "1234567890", replies with a text that
    contains "125.6元" and that account number, and sets the step to 2. *)
Theorem scenario_account_number_found (i u r : str) :
  let st := {| user_input := py "我的户号是1234567890谢谢"; intent := i;
               user_id := u; reply := r; step := 1 |} in
  user_id (check_electric_fee_node st) = py "1234567890" /\
  (exists pre post,
     reply (check_electric_fee_node st) = pre ++ py "125.6元" ++ post) /\
  (exists pre post,
     reply (check_electric_fee_node st)
     = pre ++ user_id (check_electric_fee_node st) ++ post) /\
  step (check_electric_fee_node st) = 2%Z.
Proof.
  intros st. split; [vm_compute; reflexivity | split; [|split]].
  - exists (py "你的用电户号1234567890本月电费为："),
           (py "，账单日期：2026-01-27，缴费截止日期：2026-02-15。").
    vm_compute. reflexivity.
  - exists (py "你的用电户号"),
           (py "本月电费为：125.6元，账单日期：2026-01-27，缴费截止日期：2026-02-15。").
    vm_compute. reflexivity.
  - vm_compute. reflexivity.
Qed.

(** ** The fallback flow *)

(** C4: whatever the incoming step and input, the fallback node returns
    normally, with the step at 0 and the one fixed reply that points to
    the fee lookup; the other fields are as on entry, so the reply and
    the step are the same for any two states. *)
Theorem fallback_resets_step (st st' : ConversationState) :
  other_intent_node st =
  {| user_input := user_input st; intent := intent st;
     user_id := user_id st; reply := other_reply; step := 0 |} /\
  reply (other_intent_node st) = reply (other_intent_node st') /\
  step (other_intent_node st) = step (other_intent_node st') /\
  other_intent_node (other_intent_node st) = other_intent_node st.
Proof. unfold other_intent_node. fields. auto. Qed.

(** ** The intent *)

Lemma labels_differ : check_electric_fee <> other.
Proof. vm_compute. discriminate. Qed.

(** C5, as the specification words it, fails on the code: an answer that
    is not the exact label, the label followed by a line feed, still
    yields the intent [check_electric_fee]; and when the call to the
    service raises, the node raises too instead of setting the intent to
    [other]. *)
Lemma intent_not_exact_label :
  (py "check_electric_fee" ++ [10%N] <> check_electric_fee /\
   intent_recognition_node
     (answers (py "check_electric_fee" ++ [10%N])) (session_at 0 (py "查电费"))
   = Returned (set_intent check_electric_fee (session_at 0 (py "查电费"))))
  /\
  intent_recognition_node (fails service_down) (session_at 0 (py "查电费"))
  = Raised service_down.
Proof.
  split; [split|].
  - vm_compute. discriminate.
  - vm_compute. reflexivity.
  - reflexivity.
Qed.

(** C5 (amended): for every text the classifier returns, the node
    returns the state with only [intent] changed: [intent] is
    [check_electric_fee] exactly when the returned text, with the white
    space at its two ends removed, is that label, and [other] in every
    other case; when the call to the classifier raises, the node raises
    the same exception. *)
Theorem intent_is_stripped_label
  (invoke : str -> outcome str) (st : ConversationState) :
  (forall raw, invoke (user_input st) = Returned raw ->
     exists st', intent_recognition_node invoke st = Returned st' /\
       (intent st' = check_electric_fee <-> strip raw = check_electric_fee) /\
       (strip raw <> check_electric_fee -> intent st' = other) /\
       user_input st' = user_input st /\ user_id st' = user_id st /\
       reply st' = reply st /\ step st' = step st) /\
  (forall e, invoke (user_input st) = Raised e ->
     intent_recognition_node invoke st = Raised e).
Proof.
  split.
  - intros raw H. unfold intent_recognition_node. rewrite H. simpl.
    eexists; split; [reflexivity|]. simpl.
    destruct (str_eqb (strip raw) check_electric_fee) eqn:E.
    + apply str_eqb_eq in E. repeat split; auto. congruence.
    + apply str_eqb_neq in E. repeat split; auto.
      * intros Habs. symmetry in Habs. destruct (labels_differ Habs).
      * tauto.
  - intros e H. unfold intent_recognition_node. rewrite H. reflexivity.
Qed.

Lemma intent_is_stripped_label_witness :
  exists st',
    intent_recognition_node
      (answers (py " check_electric_fee ")) (session_at 0 (py "查电费"))
    = Returned st' /\
    intent st' = check_electric_fee.
Proof.
  destruct (proj1 (intent_is_stripped_label
                     (answers (py " check_electric_fee "))
                     (session_at 0 (py "查电费")))
              (py " check_electric_fee ") eq_refl)
    as (st' & Hr & Hi & _).
  exists st'. split; [exact Hr|]. apply Hi. vm_compute. reflexivity.
Defined.

(** ** The frame of the two flows *)

(** C6: the fallback node, the fee lookup at every step other than 1, and
    the fee lookup at step 1 when no account number is found, all leave
    [user_id] as on entry; so does every run of the fee lookup that ends
    at step 0.  [user_id] differs after the fee lookup only when the step
    was 1 and the search matched, and it is then the matched text. *)
Theorem user_id_written_only_on_success (st : ConversationState) :
  user_id (other_intent_node st) = user_id st /\
  (step st <> 1%Z -> user_id (check_electric_fee_node st) = user_id st) /\
  (step st = 1%Z -> Re.search_account (user_input st) = None ->
     user_id (check_electric_fee_node st) = user_id st) /\
  (step (check_electric_fee_node st) = 0%Z ->
     user_id (check_electric_fee_node st) = user_id st) /\
  (user_id (check_electric_fee_node st) <> user_id st ->
     step st = 1%Z /\
     exists i, account_block (user_input st) i
                 (user_id (check_electric_fee_node st))).
Proof.
  split; [reflexivity|]. split; [|split; [|split]].
  - intros H. destruct (list_eq_dec N.eq_dec
                          (user_id (check_electric_fee_node st)) (user_id st))
      as [E|E]; [exact E|].
    apply fee_node_user_id in E. tauto.
  - intros Hs Hn. rewrite (fee_node_not_found st Hs Hn). reflexivity.
  - unfold check_electric_fee_node.
    destruct (Z.eqb_spec (step st) 0); [simpl; discriminate|].
    destruct (Z.eqb_spec (step st) 1).
    + destruct (Re.search_account (user_input st)); simpl;
        [discriminate | reflexivity].
    + destruct (Z.eqb_spec (step st) 2); simpl; reflexivity.
  - intros H. apply fee_node_user_id in H.
    destruct H as (Hs & [i g] & Hm & Hg). split; [exact Hs|].
    exists i. rewrite Hg. apply search_account_block, Hm.
Qed.

Lemma user_id_written_only_on_success_witness :
  step (session_at 2 (py "查电费")) <> 1%Z /\
  step (check_electric_fee_node (session_at 2 (py "查电费"))) = 0%Z /\
  user_id (check_electric_fee_node (session_at 2 (py "查电费")))
  = py "9876543210".
Proof.
  split; [discriminate | split; [reflexivity|]].
  apply (proj1 (proj2 (user_id_written_only_on_success
                         (session_at 2 (py "查电费"))))).
  discriminate.
Defined.

(** ** A whole turn *)

(** C7: from a state whose step is 0, 1 or 2, and for every input and
    every text the classifier returns for it, the turn returns a state,
    and the step of that state is 0, 1 or 2 again. *)
Theorem turn_keeps_step_valid
  (invoke : str -> outcome str) (st : ConversationState)
  (new_input raw : str) :
  valid_step (step st) -> invoke new_input = Returned raw ->
  exists st', run_turn invoke st new_input = Returned st' /\
              valid_step (step st').
Proof.
  intros Hv Hc. unfold run_turn, Talk.invoke, intent_recognition_node.
  simpl. rewrite Hc. simpl. eexists; split; [reflexivity|].
  match goal with |- context [route_intent ?s] =>
    destruct (route_intent s) end; simpl.
  - apply fee_node_valid_step. exact Hv.
  - unfold valid_step. auto.
Qed.

Lemma turn_keeps_step_valid_witness :
  valid_step (step (session_at 1 (py "查电费"))) /\
  exists st',
    run_turn (answers (py "check_electric_fee")) (session_at 1 (py "查电费"))
      (py "123") = Returned st' /\
    valid_step (step st').
Proof.
  assert (Hv : valid_step (step (session_at 1 (py "查电费")))).
  { right; left; reflexivity. }
  split; [exact Hv|].
  exact (turn_keeps_step_valid (answers (py "check_electric_fee"))
           (session_at 1 (py "查电费")) (py "123") (py "check_electric_fee")
           Hv eq_refl).
Defined.

(** ** The steps of the fee lookup *)

(** C8: at step 0 the node only sets the reply to the request for the
    account number and the step to 1; the result is the same reply and
    step whatever the input and the stored account number are. *)
Theorem step0_asks_for_account_id (st : ConversationState) (input uid : str) :
  step st = 0%Z ->
  check_electric_fee_node st =
  {| user_input := user_input st; intent := intent st;
     user_id := user_id st; reply := ask_id_reply; step := 1 |} /\
  reply (check_electric_fee_node (set_user_input input (set_user_id uid st)))
  = reply (check_electric_fee_node st) /\
  step (check_electric_fee_node (set_user_input input (set_user_id uid st)))
  = step (check_electric_fee_node st).
Proof.
  intros H. rewrite (fee_node_step0 st H).
  rewrite (fee_node_step0 (set_user_input input (set_user_id uid st)) H).
  fields. auto.
Qed.

Lemma step0_asks_for_account_id_witness :
  step (session_at 0 (py "查电费")) = 0%Z /\
  reply (check_electric_fee_node (session_at 0 (py "查电费"))) = ask_id_reply /\
  step (check_electric_fee_node (session_at 0 (py "查电费"))) = 1%Z.
Proof.
  split; [reflexivity|].
  rewrite (proj1 (step0_asks_for_account_id
                    (session_at 0 (py "查电费")) [] [] eq_refl)).
  fields. auto.
Defined.

(** C9: at step 2 the node returns normally with the "already completed"
    reply and the step back at 0; nothing else changes, whatever the
    input is. *)
Theorem step2_reports_completed (st : ConversationState) :
  step st = 2%Z ->
  check_electric_fee_node st =
  {| user_input := user_input st; intent := intent st;
     user_id := user_id st; reply := completed_reply; step := 0 |}.
Proof. intros H. rewrite (fee_node_step2 st H). fields. reflexivity. Qed.

Lemma step2_reports_completed_witness :
  step (session_at 2 (py "查电费")) = 2%Z /\
  check_electric_fee_node (session_at 2 (py "查电费")) =
  {| user_input := py "查电费"; intent := []; user_id := py "9876543210";
     reply := completed_reply; step := 0 |}.
Proof.
  split; [reflexivity|].
  exact (step2_reports_completed (session_at 2 (py "查电费")) eq_refl).
Defined.

(** C10: with a step other than 0, 1 and 2 the node returns the state it
    was given: no branch runs, the step keeps its value and the reply is
    the one the state held on entry. *)
Theorem unknown_step_leaves_state (st : ConversationState) :
  ~ valid_step (step st) ->
  check_electric_fee_node st = st /\
  step (check_electric_fee_node st) = step st /\
  reply (check_electric_fee_node st) = reply st.
Proof.
  intros H. rewrite (fee_node_other_step st H). auto.
Qed.

Lemma unknown_step_leaves_state_witness :
  ~ valid_step (step (session_at 7 (py "查电费"))) /\
  check_electric_fee_node (session_at 7 (py "查电费"))
  = session_at 7 (py "查电费").
Proof.
  assert (Hn : ~ valid_step (step (session_at 7 (py "查电费")))).
  { intros [H|[H|H]]; discriminate H. }
  split; [exact Hn|].
  exact (proj1 (unknown_step_leaves_state (session_at 7 (py "查电费")) Hn)).
Defined.

(** * Further properties of the code *)

(** ** The answer of the classifier, stripped *)

Lemma lstrip_blank_app (ws s : str) : blank ws -> lstrip (ws ++ s) = lstrip s.
Proof.
  induction 1 as [|c ws Hc Hws IH]; simpl; [reflexivity|].
  rewrite Hc. exact IH.
Qed.

Lemma lstrip_blank (ws : str) : blank ws -> lstrip ws = [].
Proof.
  intros H. rewrite <- (app_nil_r ws). rewrite lstrip_blank_app by exact H.
  reflexivity.
Qed.

Lemma lstrip_length (s : str) : length (lstrip s) <= length s.
Proof.
  induction s as [|c t IH]; simpl; [lia|].
  destruct (Unicode.isspace c); simpl; lia.
Qed.

Lemma lstrip_keeps (s t : str) :
  s <> [] -> lstrip s = s -> lstrip (s ++ t) = s ++ t.
Proof.
  destruct s as [|c r]; [congruence|]. intros _. simpl.
  destruct (Unicode.isspace c); [|reflexivity].
  intros H. apply (f_equal (@length N)) in H. simpl in H.
  pose proof (lstrip_length r). lia.
Qed.

Lemma strip_padded (ws1 s ws2 : str) :
  blank ws1 -> blank ws2 -> lstrip s = s -> rstrip s = s ->
  strip (ws1 ++ s ++ ws2) = s.
Proof.
  intros H1 H2 Hl Hr. unfold strip. rewrite lstrip_blank_app by exact H1.
  destruct s as [|c r].
  - simpl. rewrite lstrip_blank by exact H2. reflexivity.
  - rewrite lstrip_keeps by (assumption || discriminate).
    unfold rstrip in *. rewrite rev_app_distr.
    rewrite lstrip_blank_app by (apply Forall_rev; exact H2). exact Hr.
Qed.

Lemma strip_blank (raw : str) : blank raw -> strip raw = [].
Proof. intros H. unfold strip. rewrite lstrip_blank by exact H. reflexivity. Qed.

(** X1: an answer made of the label [check_electric_fee] with any white
    space before and after it gives the intent [check_electric_fee]. *)
Theorem padded_label_is_check_fee
  (invoke : str -> outcome str) (st : ConversationState) (ws1 ws2 : str) :
  blank ws1 -> blank ws2 ->
  invoke (user_input st) = Returned (ws1 ++ check_electric_fee ++ ws2) ->
  intent_recognition_node invoke st
  = Returned (set_intent check_electric_fee st).
Proof.
  intros H1 H2 Hc. unfold intent_recognition_node. rewrite Hc. unfold bind.
  rewrite strip_padded;
    [ | assumption | assumption | vm_compute; reflexivity
      | vm_compute; reflexivity ].
  replace (str_eqb check_electric_fee check_electric_fee) with true
    by (symmetry; apply str_eqb_eq; reflexivity).
  reflexivity.
Qed.

Lemma padded_label_is_check_fee_witness :
  intent_recognition_node
    (answers ([32; 10]%N ++ check_electric_fee ++ [9; 32; 10]%N))
    (session_at 0 (py "查电费"))
  = Returned (set_intent check_electric_fee (session_at 0 (py "查电费"))).
Proof.
  apply (padded_label_is_check_fee
           (answers ([32; 10]%N ++ check_electric_fee ++ [9; 32; 10]%N))
           (session_at 0 (py "查电费")) [32; 10]%N [9; 32; 10]%N).
  - repeat constructor.
  - repeat constructor.
  - reflexivity.
Defined.

(** X2: an answer that is empty or made of white space only gives the
    intent [other]. *)
Theorem blank_answer_is_other
  (invoke : str -> outcome str) (st : ConversationState) (raw : str) :
  blank raw -> invoke (user_input st) = Returned raw ->
  intent_recognition_node invoke st = Returned (set_intent other st).
Proof.
  intros Hb Hc. unfold intent_recognition_node. rewrite Hc. unfold bind.
  rewrite strip_blank by exact Hb.
  replace (str_eqb [] check_electric_fee) with false
    by (vm_compute; reflexivity).
  reflexivity.
Qed.

Lemma blank_answer_is_other_witness :
  intent_recognition_node (answers []) (session_at 1 (py "1234567890"))
  = Returned (set_intent other (session_at 1 (py "1234567890"))).
Proof.
  apply (blank_answer_is_other (answers []) (session_at 1 (py "1234567890")) []).
  - constructor.
  - reflexivity.
Defined.

(** ** The graph *)

Lemma route_check (st : ConversationState) :
  route_intent (set_intent check_electric_fee st) = Check_electric_fee_node.
Proof.
  unfold route_intent. fields.
  replace (str_eqb check_electric_fee check_electric_fee) with true
    by (symmetry; apply str_eqb_eq; reflexivity).
  reflexivity.
Qed.

Lemma route_other (st : ConversationState) :
  route_intent (set_intent other st) = Other_intent_node.
Proof.
  unfold route_intent. fields.
  replace (str_eqb other check_electric_fee) with false
    by (vm_compute; reflexivity).
  reflexivity.
Qed.

Lemma invoke_returned (invoke : str -> outcome str)
  (st : ConversationState) (raw : str) :
  invoke (user_input st) = Returned raw ->
  Talk.invoke invoke st =
  Returned (if str_eqb (strip raw) check_electric_fee
            then check_electric_fee_node (set_intent check_electric_fee st)
            else other_intent_node (set_intent other st)).
Proof.
  intros Hc. unfold Talk.invoke, intent_recognition_node. rewrite Hc.
  unfold bind. destruct (str_eqb (strip raw) check_electric_fee).
  - rewrite route_check. reflexivity.
  - rewrite route_other. reflexivity.
Qed.

Lemma invoke_raised (invoke : str -> outcome str)
  (st : ConversationState) (e : exn) :
  invoke (user_input st) = Raised e -> Talk.invoke invoke st = Raised e.
Proof.
  intros Hc. unfold Talk.invoke, intent_recognition_node. rewrite Hc.
  reflexivity.
Qed.

(** X3: a run of the graph executes exactly one of the two flows, chosen
    by the stripped answer of the classifier alone: the fee lookup when
    it is the label [check_electric_fee], the fallback in every other
    case; when the classifier raises, neither runs and the graph raises
    the same exception. *)
Theorem graph_runs_one_flow
  (invoke : str -> outcome str) (st : ConversationState) :
  (forall raw, invoke (user_input st) = Returned raw ->
     strip raw = check_electric_fee ->
     Talk.invoke invoke st
     = Returned (check_electric_fee_node (set_intent check_electric_fee st)))
  /\
  (forall raw, invoke (user_input st) = Returned raw ->
     strip raw <> check_electric_fee ->
     Talk.invoke invoke st
     = Returned {| user_input := user_input st; intent := other;
                   user_id := user_id st; reply := other_reply; step := 0 |})
  /\
  (forall e, invoke (user_input st) = Raised e ->
     Talk.invoke invoke st = Raised e).
Proof.
  split; [|split].
  - intros raw Hc Hs. rewrite (invoke_returned invoke st raw Hc).
    apply str_eqb_eq in Hs. rewrite Hs. reflexivity.
  - intros raw Hc Hs. rewrite (invoke_returned invoke st raw Hc).
    apply str_eqb_neq in Hs. rewrite Hs. unfold other_intent_node. fields.
    reflexivity.
  - apply invoke_raised.
Qed.

Lemma graph_runs_one_flow_witness :
  Talk.invoke (answers (py "other")) (session_at 1 (py "1234567890"))
  = Returned {| user_input := py "1234567890"; intent := other;
                user_id := py "9876543210"; reply := other_reply;
                step := 0 |}.
Proof.
  apply (proj1 (proj2 (graph_runs_one_flow (answers (py "other"))
                         (session_at 1 (py "1234567890"))))
           (py "other")).
  - reflexivity.
  - vm_compute. discriminate.
Defined.

(** ** One turn *)

Lemma run_turn_returned (invoke : str -> outcome str)
  (st : ConversationState) (input raw : str) :
  invoke input = Returned raw ->
  run_turn invoke st input =
  Returned (if str_eqb (strip raw) check_electric_fee
            then check_electric_fee_node
                   (set_intent check_electric_fee (set_user_input input st))
            else other_intent_node
                   (set_intent other (set_user_input input st))).
Proof.
  intros Hc. unfold run_turn.
  apply (invoke_returned invoke (set_user_input input st) raw). exact Hc.
Qed.

Lemma run_turn_raised (invoke : str -> outcome str)
  (st : ConversationState) (input : str) (e : exn) :
  invoke input = Raised e -> run_turn invoke st input = Raised e.
Proof.
  intros Hc. unfold run_turn.
  apply (invoke_raised invoke (set_user_input input st) e). exact Hc.
Qed.

Lemma run_turn_cases (invoke : str -> outcome str)
  (st st' : ConversationState) (input : str) :
  run_turn invoke st input = Returned st' ->
  st' = check_electric_fee_node
          (set_intent check_electric_fee (set_user_input input st)) \/
  st' = other_intent_node (set_intent other (set_user_input input st)).
Proof.
  destruct (invoke input) as [raw|e] eqn:Hc.
  - rewrite (run_turn_returned invoke st input raw Hc).
    destruct (str_eqb (strip raw) check_electric_fee);
      intros H; injection H as <-; auto.
  - rewrite (run_turn_raised invoke st input e Hc). discriminate.
Qed.

Lemma fee_node_ignores (st : ConversationState) (x i r input : str) :
  valid_step (step st) ->
  check_electric_fee_node
    (set_intent x (set_user_input input (set_reply r (set_intent i st))))
  = check_electric_fee_node (set_intent x (set_user_input input st)).
Proof.
  intros Hv. unfold check_electric_fee_node. fields.
  destruct (Z.eqb_spec (step st) 0); [reflexivity|].
  destruct (Z.eqb_spec (step st) 1);
    [destruct (Re.search_account input); reflexivity|].
  destruct (Z.eqb_spec (step st) 2); [reflexivity|].
  unfold valid_step in Hv. lia.
Qed.

(** X4: while the step is 0, 1 or 2, the result of a turn does not depend
    on the [intent] and the [reply] the state holds on entry: they are
    local to a turn, and [step] and [user_id] are all a turn takes from
    the turns before it. *)
Theorem turn_ignores_intent_and_reply
  (invoke : str -> outcome str) (st : ConversationState) (i r input : str) :
  valid_step (step st) ->
  run_turn invoke (set_reply r (set_intent i st)) input
  = run_turn invoke st input.
Proof.
  intros Hv. destruct (invoke input) as [raw|e] eqn:Hc.
  - rewrite !(run_turn_returned invoke _ input raw Hc).
    destruct (str_eqb (strip raw) check_electric_fee).
    + rewrite (fee_node_ignores st _ i r input Hv). reflexivity.
    + reflexivity.
  - rewrite !(run_turn_raised invoke _ input e Hc). reflexivity.
Qed.

Lemma turn_ignores_intent_and_reply_witness :
  run_turn (answers (py "check_electric_fee"))
    (set_reply (py "old reply") (set_intent (py "other")
       (session_at 1 [])))
    (py "1234567890")
  = run_turn (answers (py "check_electric_fee")) (session_at 1 [])
      (py "1234567890").
Proof.
  apply (turn_ignores_intent_and_reply (answers (py "check_electric_fee"))
           (session_at 1 []) (py "other") (py "old reply") (py "1234567890")).
  right; left; reflexivity.
Defined.

Lemma search_account_valid (s : str) (m : Re.Match) :
  Re.search_account s = Some m -> valid_account_id (Re.group m).
Proof.
  destruct m as [i g]. intros H. apply search_account_block in H.
  destruct H as (_ & Hl & Hf & _). split; assumption.
Qed.

Lemma search_account_some_run (s : str) (m : Re.Match) :
  Re.search_account s = Some m -> has_digit_run s.
Proof.
  destruct m as [i g]. intros H. apply search_account_block in H.
  destruct H as (Hfirst & Hl & Hf & _).
  exists i, (length g). split; [exact Hl|]. split.
  - rewrite <- Hfirst at 1. rewrite length_firstn. lia.
  - rewrite Hfirst. exact Hf.
Qed.

Lemma fee_node_step2_iff (st : ConversationState) :
  step (check_electric_fee_node st) = 2%Z <->
  step st = 1%Z /\ has_digit_run (user_input st).
Proof.
  unfold check_electric_fee_node.
  destruct (Z.eqb_spec (step st) 0) as [E0|E0];
    [fields; split; [discriminate | lia]|].
  destruct (Z.eqb_spec (step st) 1) as [E1|E1].
  - destruct (Re.search_account (user_input st)) as [m|] eqn:E; fields.
    + split; [intros _|reflexivity]. split; [assumption|].
      apply (search_account_some_run _ m E).
    + split; [discriminate|]. intros [_ Hd].
      apply search_account_none in E. contradiction.
  - destruct (Z.eqb_spec (step st) 2) as [E2|E2]; fields.
    + split; [discriminate | lia].
    + split; [intros H; contradiction | lia].
Qed.

(** X5: a turn ends at step 2, the fee given, exactly when it started at
    step 1, the stripped answer of the classifier is the label
    [check_electric_fee] and the input holds a run of 10 to 12 digits;
    the reply is then the fee text for the account number just stored. *)
Theorem fee_given_exactly_when
  (invoke : str -> outcome str) (st : ConversationState) (input raw : str) :
  invoke input = Returned raw ->
  exists st', run_turn invoke st input = Returned st' /\
    (step st' = 2%Z <->
     step st = 1%Z /\ strip raw = check_electric_fee /\ has_digit_run input) /\
    (step st' = 2%Z -> reply st' = fee_reply (user_id st')).
Proof.
  intros Hc. rewrite (run_turn_returned invoke st input raw Hc).
  eexists; split; [reflexivity|].
  destruct (str_eqb (strip raw) check_electric_fee) eqn:E.
  - apply str_eqb_eq in E. rewrite fee_node_step2_iff. fields. split.
    + tauto.
    + intros [H1 Hd]. unfold check_electric_fee_node. fields. rewrite H1.
      change ((1 =? 0)%Z) with false. change ((1 =? 1)%Z) with true.
      cbv iota.
      destruct (Re.search_account input) as [m|] eqn:Em; fields;
        [reflexivity|].
      apply search_account_none in Em. contradiction.
  - apply str_eqb_neq in E. unfold other_intent_node. fields. split.
    + split; [discriminate | tauto].
    + discriminate.
Qed.

Lemma fee_given_exactly_when_witness :
  exists st',
    run_turn (answers (py "other")) (session_at 1 []) (py "1234567890")
    = Returned st' /\ step st' <> 2%Z.
Proof.
  destruct (fee_given_exactly_when (answers (py "other")) (session_at 1 [])
              (py "1234567890") (py "other") eq_refl)
    as (st' & Hr & Hiff & _).
  exists st'. split; [exact Hr|]. intros H. apply Hiff in H.
  destruct H as (_ & Hs & _). vm_compute in Hs. discriminate Hs.
Defined.

(** Checks by computation that every character of a text is, or is
    not, in a class. *)
Lemma Forall_check (f : N -> bool) (b : bool) (s : str) :
  forallb (fun c => Bool.eqb (f c) b) s = true ->
  Forall (fun c => f c = b) s.
Proof.
  intros H. apply Forall_forall. intros c Hc.
  rewrite forallb_forall in H. apply Bool.eqb_prop. apply H, Hc.
Qed.

Lemma fee_node_reply (st : ConversationState) :
  valid_step (step st) -> is_reply (reply (check_electric_fee_node st)).
Proof.
  intros Hv. unfold check_electric_fee_node, is_reply.
  destruct (Z.eqb_spec (step st) 0); [fields; left; reflexivity|].
  destruct (Z.eqb_spec (step st) 1).
  - destruct (Re.search_account (user_input st)) as [m|] eqn:E; fields.
    + do 4 right. exists (Re.group m). split; [|reflexivity].
      apply (search_account_valid _ m E).
    + right; left; reflexivity.
  - destruct (Z.eqb_spec (step st) 2);
      [fields; right; right; left; reflexivity|].
    unfold valid_step in Hv. lia.
Qed.

Lemma run_turn_reply
  (invoke : str -> outcome str) (st st' : ConversationState) (input : str) :
  valid_step (step st) ->
  run_turn invoke st input = Returned st' ->
  is_reply (reply st').
Proof.
  intros Hv Hr. apply run_turn_cases in Hr. destruct Hr as [-> | ->].
  - apply fee_node_reply. exact Hv.
  - unfold other_intent_node, is_reply. fields.
    do 3 right; left; reflexivity.
Qed.

Lemma run_turn_valid_step
  (invoke : str -> outcome str) (st st' : ConversationState) (input : str) :
  valid_step (step st) ->
  run_turn invoke st input = Returned st' ->
  valid_step (step st').
Proof.
  intros Hv Hr. apply run_turn_cases in Hr. destruct Hr as [-> | ->].
  - apply fee_node_valid_step. exact Hv.
  - left. reflexivity.
Qed.

(** X6: a turn that starts at step 0, 1 or 2 always answers with one of
    the five replies of the flows (the request for the account number,
    the fee text for a well formed account number, the format error, the
    completed message, the fallback message), never with the reply a
    former turn left in the state. *)
Theorem turn_reply_is_fresh
  (invoke : str -> outcome str) (st st' : ConversationState) (input : str) :
  valid_step (step st) ->
  run_turn invoke st input = Returned st' ->
  is_reply (reply st').
Proof. apply run_turn_reply. Qed.

Lemma turn_reply_is_fresh_witness :
  is_reply
    (reply (check_electric_fee_node
              (set_intent check_electric_fee
                 (set_user_input (py "查电费") (session_at 2 []))))).
Proof.
  apply (turn_reply_is_fresh (answers (py "check_electric_fee"))
           (session_at 2 []) _ (py "查电费")).
  - right; right; reflexivity.
  - vm_compute. reflexivity.
Defined.

Lemma fee_node_user_id_valid (st : ConversationState) :
  user_id (check_electric_fee_node st) = user_id st \/
  valid_account_id (user_id (check_electric_fee_node st)).
Proof.
  destruct (list_eq_dec N.eq_dec
              (user_id (check_electric_fee_node st)) (user_id st)) as [E|E];
    [left; exact E | right].
  apply fee_node_user_id in E. destruct E as (_ & m & Hm & ->).
  apply (search_account_valid _ m Hm).
Qed.

Lemma run_turn_stored_id_ok
  (invoke : str -> outcome str) (st st' : ConversationState) (input : str) :
  stored_id_ok (user_id st) ->
  run_turn invoke st input = Returned st' ->
  stored_id_ok (user_id st').
Proof.
  intros Hok Hr. apply run_turn_cases in Hr. destruct Hr as [-> | ->].
  - destruct (fee_node_user_id_valid
                (set_intent check_electric_fee (set_user_input input st)))
      as [E|E].
    + rewrite E. exact Hok.
    + right. exact E.
  - exact Hok.
Qed.

(** X7: a turn never stores anything but an account number of 10 to 12
    digits: when the stored account number is empty or well formed before
    a turn, it is so after it. *)
Theorem turn_keeps_stored_id_ok
  (invoke : str -> outcome str) (st st' : ConversationState) (input : str) :
  stored_id_ok (user_id st) ->
  run_turn invoke st input = Returned st' ->
  stored_id_ok (user_id st').
Proof. apply run_turn_stored_id_ok. Qed.

Lemma turn_keeps_stored_id_ok_witness :
  exists st',
    run_turn (answers (py "check_electric_fee")) (session_at 1 [])
      (py "户号123456789012") = Returned st' /\
    user_id st' = py "123456789012" /\
    user_id st' <> user_id (session_at 1 []) /\
    stored_id_ok (user_id st').
Proof.
  assert (Hok : stored_id_ok (user_id (session_at 1 []))).
  { right. split; [vm_compute; lia|].
    apply Forall_check. vm_compute. reflexivity. }
  assert (Hr : run_turn (answers (py "check_electric_fee")) (session_at 1 [])
                 (py "户号123456789012")
               = Returned
                   (check_electric_fee_node
                      (set_intent check_electric_fee
                         (set_user_input (py "户号123456789012")
                            (session_at 1 []))))).
  { vm_compute. reflexivity. }
  eexists. split; [exact Hr|].
  split; [vm_compute; reflexivity|].
  split; [vm_compute; discriminate|].
  exact (turn_keeps_stored_id_ok (answers (py "check_electric_fee"))
           (session_at 1 []) _ (py "户号123456789012") Hok Hr).
Defined.

(** ** Where the account number stands in the input *)

Lemma search_from_skip (cls : N -> bool) (lo hi pos : nat) (pre s : str) :
  0 < lo <= hi -> Forall (fun c => cls c = false) pre ->
  Re.search_from cls lo hi pos (pre ++ s)
  = Re.search_from cls lo hi (pos + length pre) s.
Proof.
  intros Hlo Hp. revert pos. induction Hp as [|c pre Hc Hp IH]; intros pos.
  - simpl. rewrite Nat.add_0_r. reflexivity.
  - change ((c :: pre) ++ s) with ([] ++ c :: (pre ++ s)).
    rewrite (search_from_short cls lo hi) by (simpl; auto; lia).
    rewrite IH. f_equal. simpl. lia.
Qed.

Lemma search_account_clean (pre g post : str) :
  no_digit pre -> valid_account_id g ->
  stops_at Unicode.isdecimal post 0 ->
  Re.search_account (pre ++ g ++ post)
  = Some {| Re.start := length pre; Re.group := g |}.
Proof.
  intros Hp [Hl Hf] Hs. unfold Re.search_account, Re.search_repeat.
  rewrite search_from_skip by (assumption || lia).
  apply search_from_hit; assumption || lia.
Qed.

(** X8: at step 1, an account number of 10 to 12 digits is stored as it
    was typed whenever no digit stands before it in the input and no
    digit follows it directly, whatever other text surrounds it, digits
    further on included. *)
Theorem account_number_stored_verbatim
  (st : ConversationState) (pre g post : str) :
  step st = 1%Z -> user_input st = pre ++ g ++ post ->
  no_digit pre -> valid_account_id g ->
  stops_at Unicode.isdecimal post 0 ->
  check_electric_fee_node st
  = set_step 2 (set_reply (fee_reply g) (set_user_id g st)).
Proof.
  intros Hstep Hin Hp Hg Hs.
  pose proof (search_account_clean pre g post Hp Hg Hs) as Hm.
  rewrite <- Hin in Hm. rewrite (fee_node_found st _ Hstep Hm). reflexivity.
Qed.

Lemma account_number_stored_verbatim_witness :
  user_id (check_electric_fee_node
             (session_at 1 (py "户号：123456789012，电话：13800000000")))
  = py "123456789012".
Proof.
  rewrite (account_number_stored_verbatim
             (session_at 1 (py "户号：123456789012，电话：13800000000"))
             (py "户号：") (py "123456789012") (py "，电话：13800000000")).
  - fields. reflexivity.
  - reflexivity.
  - vm_compute. reflexivity.
  - apply Forall_check. vm_compute. reflexivity.
  - split; [vm_compute; lia | apply Forall_check; vm_compute; reflexivity].
  - vm_compute. reflexivity.
Defined.

Lemma prefix_in_app (cls : N -> bool) (n : nat) (a b : str) :
  prefix_in cls n a -> prefix_in cls n (a ++ b).
Proof.
  intros [Hl Hf]. split.
  - rewrite length_app. lia.
  - rewrite firstn_app. replace (n - length a) with 0 by lia.
    rewrite app_nil_r. exact Hf.
Qed.

Lemma has_digit_run_app (pre s post : str) :
  has_digit_run s -> has_digit_run (pre ++ s ++ post).
Proof.
  intros (i & n & Hn & [Hl Hd]).
  assert (Hi : i <= length s).
  { destruct (Nat.le_gt_cases i (length s)) as [H|H]; [exact H|].
    rewrite skipn_all2 in Hl by lia. simpl in Hl. lia. }
  exists (i + length pre), n. split; [exact Hn|].
  unfold digits_at. rewrite <- skipn_skipn, skipn_length_app.
  rewrite skipn_app. replace (i - length s) with 0 by lia.
  apply prefix_in_app. split; assumption.
Qed.

(** X9: at step 1, text added before or after an input that is accepted
    never turns it into a format error: the longer input is accepted
    too. *)
Theorem longer_input_still_accepted
  (st : ConversationState) (pre post : str) :
  step (check_electric_fee_node st) = 2%Z ->
  step (check_electric_fee_node
          (set_user_input (pre ++ user_input st ++ post) st)) = 2%Z.
Proof.
  rewrite !fee_node_step2_iff. fields. intros [Hs Hd].
  split; [exact Hs | apply has_digit_run_app, Hd].
Qed.

Lemma longer_input_still_accepted_witness :
  step (check_electric_fee_node
          (set_user_input (py "我的户号是" ++ py "1234567890" ++ py "99谢谢")
             (session_at 1 (py "1234567890")))) = 2%Z.
Proof.
  apply (longer_input_still_accepted (session_at 1 (py "1234567890"))
           (py "我的户号是") (py "99谢谢")).
  vm_compute. reflexivity.
Defined.

(** ** The session *)

Section SessionFacts.
Variable chain_at : nat -> str -> outcome str.

Lemma main_loop_cons (t : nat) (input : str) (rest : list str)
  (st : ConversationState) :
  main_loop chain_at t (input :: rest) st =
  if str_eqb input quit_word then ([prompt; farewell], Returned st)
  else
    match run_turn (chain_at t) st input with
    | Raised e => ([prompt], Raised e)
    | Returned result =>
        let (out, r) :=
          main_loop chain_at (S t) rest
            (set_user_id (user_id result)
               (set_step (step result) (set_user_input input st))) in
        (prompt :: reply_line (reply result) :: out, r)
    end.
Proof. reflexivity. Qed.

Lemma main_loop_quit_rest (t : nat) (pre post : list str)
  (st : ConversationState) :
  main_loop chain_at t (pre ++ quit_word :: post) st
  = main_loop chain_at t (pre ++ [quit_word]) st.
Proof.
  revert t st. induction pre as [|x pre IH]; intros t st.
  - cbn [app]. rewrite !main_loop_cons.
    replace (str_eqb quit_word quit_word) with true
      by (symmetry; apply str_eqb_eq; reflexivity).
    reflexivity.
  - cbn [app]. rewrite !main_loop_cons.
    destruct (str_eqb x quit_word); [reflexivity|].
    destruct (run_turn (chain_at t) st x) as [result|e]; [|reflexivity].
    rewrite IH. reflexivity.
Qed.

Lemma main_loop_invariant (t : nat) (stdin out : list str)
  (st st' : ConversationState) :
  valid_step (step st) -> stored_id_ok (user_id st) ->
  main_loop chain_at t stdin st = (out, Returned st') ->
  valid_step (step st') /\ stored_id_ok (user_id st') /\
  intent st' = intent st /\ reply st' = reply st.
Proof.
  revert t out st. induction stdin as [|x rest IH]; intros t out st Hv Hok.
  - cbn [main_loop]. discriminate.
  - rewrite main_loop_cons. destruct (str_eqb x quit_word).
    + intros H; injection H as _ <-. auto.
    + destruct (run_turn (chain_at t) st x) as [result|e] eqn:Hr;
        [|discriminate].
      destruct (main_loop chain_at (S t) rest _) as [o r] eqn:Hm.
      intros H; injection H as _ ->.
      apply IH in Hm.
      * revert Hm. fields. auto.
      * fields. apply (run_turn_valid_step _ _ _ _ Hv Hr).
      * fields. apply (run_turn_stored_id_ok _ _ _ _ Hok Hr).
Qed.

Lemma main_loop_outputs (t : nat) (stdin : list str) (st : ConversationState) :
  valid_step (step st) ->
  Forall is_output (fst (main_loop chain_at t stdin st)).
Proof.
  revert t st. induction stdin as [|x rest IH]; intros t st Hv.
  - cbn [main_loop fst]. constructor; [left; reflexivity | constructor].
  - rewrite main_loop_cons. destruct (str_eqb x quit_word).
    + cbn [fst]. constructor; [left; reflexivity|].
      constructor; [right; left; reflexivity | constructor].
    + destruct (run_turn (chain_at t) st x) as [result|e] eqn:Hr.
      * pose proof (run_turn_valid_step _ _ _ _ Hv Hr) as Hv'.
        specialize (IH (S t)
                      (set_user_id (user_id result)
                         (set_step (step result) (set_user_input x st)))
                      Hv').
        destruct (main_loop chain_at (S t) rest _) as [o r].
        cbn [fst] in *. constructor; [left; reflexivity|].
        constructor; [|exact IH].
        right; right. exists (reply result). split; [|reflexivity].
        apply (run_turn_reply _ _ _ _ Hv Hr).
      * cbn [fst]. constructor; [left; reflexivity | constructor].
Qed.

Lemma main_loop_returned (t : nat) (stdin out : list str)
  (st st' : ConversationState) :
  main_loop chain_at t stdin st = (out, Returned st') ->
  In quit_word stdin /\ exists out0, out = out0 ++ [prompt; farewell].
Proof.
  revert t out st. induction stdin as [|x rest IH]; intros t out st.
  - cbn [main_loop]. discriminate.
  - rewrite main_loop_cons. destruct (str_eqb x quit_word) eqn:E.
    + apply str_eqb_eq in E. intros H; injection H as <- _.
      split; [left; exact E | exists []; reflexivity].
    + destruct (run_turn (chain_at t) st x) as [result|e]; [|discriminate].
      destruct (main_loop chain_at (S t) rest _) as [o r] eqn:Hm.
      intros H; injection H as <- ->.
      apply IH in Hm. destruct Hm as [Hin [out0 ->]].
      split; [right; exact Hin|].
      exists (prompt :: reply_line (reply result) :: out0). reflexivity.
Qed.

Lemma main_loop_eof (t : nat) (stdin : list str) (st : ConversationState) :
  valid_step (step st) ->
  ~ In quit_word stdin ->
  (forall k input, exists raw, chain_at k input = Returned raw) ->
  exists replies,
    length replies = length stdin /\ Forall is_reply replies /\
    main_loop chain_at t stdin st
    = (flat_map (fun r => [prompt; reply_line r]) replies ++ [prompt],
       Raised EOFError).
Proof.
  intros Hv Hq Hc. revert t st Hv.
  induction stdin as [|x rest IH]; intros t st Hv.
  - exists []. repeat split. constructor.
  - rewrite main_loop_cons.
    destruct (str_eqb x quit_word) eqn:E.
    + apply str_eqb_eq in E. exfalso. apply Hq. left. exact E.
    + destruct (run_turn (chain_at t) st x) as [result|e] eqn:Hr.
      * pose proof (run_turn_valid_step _ _ _ _ Hv Hr) as Hv'.
        pose proof (run_turn_reply _ _ _ _ Hv Hr) as Hrep.
        destruct (IH (fun H => Hq (or_intror H)) (S t)
                    (set_user_id (user_id result)
                       (set_step (step result) (set_user_input x st)))
                    Hv')
          as (replies & Hl & Hf & ->).
        exists (reply result :: replies).
        split; [simpl; lia|]. split; [constructor; assumption|].
        reflexivity.
      * destruct (Hc t x) as [raw Hraw].
        rewrite (run_turn_returned _ st x raw Hraw) in Hr. discriminate Hr.
Qed.


End SessionFacts.

(** On a console without faults the loop on any console is the loop on
    the lines typed. *)
Lemma main_loop_io_without_faults
  (chain_at : nat -> str -> outcome str) (print_at : nat -> option exn)
  (t : nat) (lines : list str) (st : ConversationState) :
  (forall k, print_at k = None) ->
  main_loop_io chain_at print_at t (map Line lines) st
  = main_loop chain_at t lines st.
Proof.
  intros Hp. revert t st. induction lines as [|x rest IH]; intros t st.
  - reflexivity.
  - rewrite main_loop_cons. cbn [map main_loop_io]. rewrite !Hp.
    destruct (str_eqb x quit_word); [reflexivity|].
    change (invoke (chain_at t) (set_user_input x st))
      with (run_turn (chain_at t) st x).
    destruct (run_turn (chain_at t) st x) as [result|e]; [|reflexivity].
    rewrite IH. reflexivity.
Qed.

Lemma main_io_without_faults
  (chain_at : nat -> str -> outcome str) (print_at : nat -> option exn)
  (lines : list str) :
  (forall k, print_at k = None) ->
  main_io chain_at print_at (map Line lines) = main chain_at lines.
Proof.
  intros Hp. unfold main_io, main. rewrite !Hp.
  rewrite (main_loop_io_without_faults _ _ _ _ _ Hp). reflexivity.
Qed.

(** X10: the session stops at the first line that is the word 退出: what
    the script writes and how it ends do not depend on the lines that
    follow it, which are never read. *)
Theorem quit_ends_session
  (chain_at : nat -> str -> outcome str) (pre post : list str) :
  main chain_at (pre ++ quit_word :: post) = main chain_at (pre ++ [quit_word]).
Proof. unfold main. rewrite main_loop_quit_rest. reflexivity. Qed.

(** X11: the script ends without an exception only when a line of the
    input is the word 退出, and the last things it writes are then the
    prompt and the farewell. *)
Theorem session_ends_normally_only_by_quit
  (chain_at : nat -> str -> outcome str) (stdin out : list str)
  (st' : ConversationState) :
  main chain_at stdin = (out, Returned st') ->
  In quit_word stdin /\
  exists out0, out = banner ++ out0 ++ [prompt; farewell].
Proof.
  unfold main. destruct (main_loop chain_at 0 stdin initial_state)
    as [o r] eqn:Hm.
  intros H; injection H as <- ->.
  apply main_loop_returned in Hm. destruct Hm as [Hin [out0 ->]].
  split; [exact Hin | exists out0; reflexivity].
Qed.

Lemma session_ends_normally_only_by_quit_witness :
  In quit_word [py "查电费"; quit_word].
Proof.
  apply (session_ends_normally_only_by_quit
           (fun _ => answers (py "check_electric_fee"))
           [py "查电费"; quit_word]
           (fst (main (fun _ => answers (py "check_electric_fee"))
                   [py "查电费"; quit_word]))
           {| user_input := py "查电费"; intent := []; user_id := [];
              reply := []; step := 1 |}).
  vm_compute. reflexivity.
Defined.

(** X13: on a console without faults, where [input] returns the lines
    typed and [print] does not fail, when no line is the word 退出 and
    every call of the classifier returns, the script writes, after the
    banner, the prompt and the line of one of the five replies for each
    line typed, in turn, then the prompt once more, and ends with
    [EOFError] there. *)
Theorem session_without_quit_hits_eof
  (chain_at : nat -> str -> outcome str) (print_at : nat -> option exn)
  (lines : list str) :
  (forall k, print_at k = None) ->
  ~ In quit_word lines ->
  (forall k input, exists raw, chain_at k input = Returned raw) ->
  exists replies,
    length replies = length lines /\ Forall is_reply replies /\
    main_io chain_at print_at (map Line lines)
    = (banner ++ flat_map (fun r => [prompt; reply_line r]) replies
         ++ [prompt],
       Raised EOFError).
Proof.
  intros Hp Hq Hc. rewrite (main_io_without_faults _ _ _ Hp). unfold main.
  destruct (main_loop_eof chain_at 0 lines initial_state
              (or_introl eq_refl) Hq Hc)
    as (replies & Hl & Hf & ->).
  exists replies. split; [exact Hl | split; [exact Hf | reflexivity]].
Qed.

Lemma session_without_quit_hits_eof_witness :
  exists replies,
    length replies = 2 /\ Forall is_reply replies /\
    main_io (fun _ => answers (py "check_electric_fee")) (fun _ => None)
      (map Line [py "查电费"; py "123"])
    = (banner ++ flat_map (fun r => [prompt; reply_line r]) replies
         ++ [prompt],
       Raised EOFError).
Proof.
  apply (session_without_quit_hits_eof
           (fun _ => answers (py "check_electric_fee")) (fun _ => None)
           [py "查电费"; py "123"]).
  - reflexivity.
  - intros [H|[H|[]]]; vm_compute in H; discriminate H.
  - intros k input. exists (py "check_electric_fee"). reflexivity.
Defined.

(** X14: whatever the lines typed and the answers of the classifier, the
    state the loop carries from turn to turn keeps its step among 0, 1
    and 2 and its account number empty or made of 10 to 12 digits. *)
Theorem session_invariant
  (chain_at : nat -> str -> outcome str) (stdin out : list str)
  (st' : ConversationState) :
  main chain_at stdin = (out, Returned st') ->
  valid_step (step st') /\ stored_id_ok (user_id st').
Proof.
  unfold main. destruct (main_loop chain_at 0 stdin initial_state)
    as [o r] eqn:Hm.
  intros H; injection H as _ ->.
  apply main_loop_invariant in Hm;
    [tauto | left; reflexivity | left; reflexivity].
Qed.

Lemma session_invariant_witness :
  valid_step 2 /\ stored_id_ok (py "1234567890").
Proof.
  destruct (session_invariant
              (fun _ => answers (py "check_electric_fee"))
              [py "查电费"; py "1234567890"; quit_word]
              (fst (main (fun _ => answers (py "check_electric_fee"))
                      [py "查电费"; py "1234567890"; quit_word]))
              {| user_input := py "1234567890"; intent := [];
                 user_id := py "1234567890"; reply := []; step := 2 |})
    as (Hv & Hok).
  - vm_compute. reflexivity.
  - split; [exact Hv | exact Hok].
Defined.

(** X15: after the banner, everything the script writes is the prompt,
    the farewell or the line of one of the five replies of the flows,
    whatever the lines typed and the answers of the classifier. *)
Theorem session_writes_only_replies
  (chain_at : nat -> str -> outcome str) (stdin : list str) :
  exists out, fst (main chain_at stdin) = banner ++ out /\
              Forall is_output out.
Proof.
  unfold main.
  pose proof (main_loop_outputs chain_at 0 stdin initial_state
                (or_introl eq_refl)) as H.
  destruct (main_loop chain_at 0 stdin initial_state) as [o r].
  exists o. split; [reflexivity | exact H].
Qed.



(** ** The rule of the specification on a concrete input *)

Lemma Forall_agree_check (f g : N -> bool) (s : str) :
  forallb (fun c => Bool.eqb (f c) (g c)) s = true ->
  Forall (fun c => f c = g c) s.
Proof.
  intros H. apply Forall_forall. intros c Hc.
  rewrite forallb_forall in H. apply Bool.eqb_prop. apply H, Hc.
Qed.

Lemma no_long_run_check (s : str) :
  Re.search_repeat Unicode.isdecimal 13 13 s = None ->
  forall i, ~ digits_at s i 13.
Proof.
  unfold Re.search_repeat. intros H i.
  rewrite search_from_none in H by lia.
  apply (match_here_none Unicode.isdecimal 13 13 (le_n 13)). apply H.
Qed.

Lemma first_valid_run_agrees_witness :
  option_map Re.group
    (Re.search_account (py "电话13800000000，户号123456789012。"))
  = Spec.first_valid_run (py "电话13800000000，户号123456789012。").
Proof.
  apply (first_valid_run_agrees (py "电话13800000000，户号123456789012。")).
  - apply Forall_agree_check. vm_compute. reflexivity.
  - apply no_long_run_check. vm_compute. reflexivity.
Defined.
